(** * graxybot relay server: a shallow embedding of [server.js]

    The server is an Express application with four POST handlers that relay
    chat, text-to-speech and image requests to OpenAI, ElevenLabs and Gemini.
    This development embeds the handlers, the Gemini message translator
    [formatMessagesForGemini] and the moderation pre-filter
    [evaluateAndOptimizeImagePrompt] as executable functions over an explicit
    model of JavaScript values, of the outgoing HTTP calls and of the Express
    response object, and proves the properties the specification states. *)

From Stdlib Require Import String Ascii List ZArith QArith Bool Lia.
Import ListNotations.
Local Open Scope string_scope.
Local Open Scope Z_scope.

(** ** JavaScript values

    Request bodies, upstream responses and parsed moderation verdicts are
    JSON data.  A JSON number is a decimal literal, hence a rational; the
    server only ever tests numbers for truthiness.  Strings are sequences of
    bytes (UTF-8). *)

Module JS.

#[local] Set Warnings "-register-all".

Inductive value : Type :=
| VUndefined
| VNull
| VBool (b : bool)
| VNum (n : Q)
| VStr (s : string)
| VArr (items : list value)
| VObj (fields : list (string * value)).

(** [typeof v]. *)
Definition typeof (v : value) : string :=
  match v with
  | VUndefined => "undefined"
  | VNull => "object"
  | VBool _ => "boolean"
  | VNum _ => "number"
  | VStr _ => "string"
  | VArr _ => "object"
  | VObj _ => "object"
  end.

(** ToBoolean: [undefined], [null], [false], [0] and the empty string are
    falsy, every array and object is truthy. *)
Definition truthy (v : value) : bool :=
  match v with
  | VUndefined => false
  | VNull => false
  | VBool b => b
  | VNum n => negb (Qnum n =? 0)
  | VStr s => negb (s =? "")%string
  | VArr _ => true
  | VObj _ => true
  end.

(** [a || b]. *)
Definition or_else (a b : value) : value := if truthy a then a else b.

(** [v === "s"]. *)
Definition is_str (v : value) (s : string) : bool :=
  match v with
  | VStr t => (t =? s)%string
  | _ => false
  end.

Definition isArray (v : value) : bool :=
  match v with
  | VArr _ => true
  | _ => false
  end.

(** Own property of an object, given by its properties in insertion order;
    a key occurs once (were it repeated, the first occurrence counts). *)
Fixpoint lookup (k : string) (fields : list (string * value)) : value :=
  match fields with
  | [] => VUndefined
  | (k', v) :: rest => if (k' =? k)%string then v else lookup k rest
  end.

(** [v.k] for a value [v] that is neither [undefined] nor [null].  The
    server reads only the data keys [model], [messages], [text], [prompt],
    [referenceImage], [data], [mimeType], [content], [role], [status],
    [response], [optimized_prompt], [choices], [message], [candidates],
    [parts], [inlineData], [detail]: none of them exists on a primitive
    wrapper or on [Array.prototype], so only objects answer. *)
Definition prop (v : value) (k : string) : value :=
  match v with
  | VObj fields => lookup k fields
  | _ => VUndefined
  end.

Definition nullish (v : value) : bool :=
  match v with
  | VUndefined | VNull => true
  | _ => false
  end.

(** [v?.k]. *)
Definition opt_prop (v : value) (k : string) : value :=
  if nullish v then VUndefined else prop v k.

(** [v[0]] for a non-nullish [v]: first element of an array, first unit of a
    string, the property named [0] of an object. *)
Definition elem0 (v : value) : value :=
  match v with
  | VArr (x :: _) => x
  | VStr (String c _) => VStr (String c EmptyString)
  | VObj fields => lookup "0" fields
  | _ => VUndefined
  end.

(** [v?.[0]]. *)
Definition opt_elem0 (v : value) : value :=
  if nullish v then VUndefined else elem0 v.

(** *** [String.prototype.trim]

    White space and line terminators of ECMAScript, as UTF-8 byte
    sequences: TAB, LF, VT, FF, CR, SP, U+00A0, U+1680, U+2000..U+200A,
    U+2028, U+2029, U+202F, U+205F, U+3000, U+FEFF. *)

Definition bytes (l : list nat) : string :=
  string_of_list_ascii (map ascii_of_nat l).

Definition white_space : list string :=
  map bytes
    [ [9]; [10]; [11]; [12]; [13]; [32];
      [194; 160];
      [225; 154; 128];
      [226; 128; 128]; [226; 128; 129]; [226; 128; 130]; [226; 128; 131];
      [226; 128; 132]; [226; 128; 133]; [226; 128; 134]; [226; 128; 135];
      [226; 128; 136]; [226; 128; 137]; [226; 128; 138];
      [226; 128; 168]; [226; 128; 169]; [226; 128; 175];
      [226; 129; 159];
      [227; 128; 128];
      [239; 187; 191] ]%nat.

(** [strip p s] is the rest of [s] after the prefix [p], if [s] starts with it. *)
Fixpoint strip (p s : string) : option string :=
  match p, s with
  | EmptyString, _ => Some s
  | String a p', String b s' => if Ascii.eqb a b then strip p' s' else None
  | String _ _, EmptyString => None
  end.

Fixpoint strip_any (ps : list string) (s : string) : option string :=
  match ps with
  | [] => None
  | p :: rest =>
      match strip p s with
      | Some s' => Some s'
      | None => strip_any rest s
      end
  end.

Fixpoint trim_left (fuel : nat) (ws : list string) (s : string) : string :=
  match fuel with
  | O => s
  | S fuel' =>
      match strip_any ws s with
      | Some s' => trim_left fuel' ws s'
      | None => s
      end
  end.

Definition rev_string (s : string) : string :=
  string_of_list_ascii (rev (list_ascii_of_string s)).

Definition trimStart (s : string) : string :=
  trim_left (String.length s) white_space s.

Definition trimEnd (s : string) : string :=
  rev_string
    (trim_left (String.length s) (map rev_string white_space) (rev_string s)).

Definition trim (s : string) : string := trimEnd (trimStart s).

(** [xs.join('')] for a list of strings. *)
Definition join (xs : list string) : string := String.concat "" xs.

(** [haystack.includes(needle)]. *)
Fixpoint includes (haystack needle : string) : bool :=
  if String.prefix needle haystack then true
  else
    match haystack with
    | EmptyString => false
    | String _ rest => includes rest needle
    end.

End JS.
Import JS.

Definition dquote : string := String (ascii_of_nat 34) EmptyString.
Definition newline : string := String (ascii_of_nat 10) EmptyString.

(** ** The runtime: exceptions, outgoing HTTP calls, the Express response *)

(** What a handler can throw: a [TypeError] of the engine, an [Error] the
    code raises itself, or the error axios rejects with, which carries the
    upstream response (status and data) when there was one. *)
Inductive exn : Type :=
| TypeError (message : string)
| Error (message : string)
| AxiosError (response : option (Z * value)) (message : string).

Definition exn_message (e : exn) : string :=
  match e with
  | TypeError m => m
  | Error m => m
  | AxiosError _ m => m
  end.

(** [error.response], [error.response?.status] and [error.response?.data]. *)
Definition has_response (e : exn) : bool :=
  match e with
  | AxiosError (Some _) _ => true
  | _ => false
  end.

Definition exn_status (e : exn) : value :=
  match e with
  | AxiosError (Some (st, _)) _ => VNum (inject_Z st)
  | _ => VUndefined
  end.

Definition exn_data (e : exn) : value :=
  match e with
  | AxiosError (Some (_, d)) _ => d
  | _ => VUndefined
  end.

(** [error.response?.status || 500]. *)
Definition status_or_500 (e : exn) : Z :=
  match e with
  | AxiosError (Some (st, _)) _ => if truthy (exn_status e) then st else 500
  | _ => 500
  end.

(** [error.response?.data || error.message]. *)
Definition details_of (e : exn) : value :=
  or_else (exn_data e) (VStr (exn_message e)).

Inductive result (A : Type) : Type :=
| Ok (a : A)
| Throw (e : exn).
Arguments Ok {A} a.
Arguments Throw {A} e.

(** One call of axios: always a POST. *)
Record request : Type := mkRequest {
  url : string;
  data : value;
  req_headers : list (string * string);
  responseType : string
}.

(** What axios resolves with: parsed data (JSON, or the bytes of an
    [arraybuffer] as a string), or a readable stream, given by its chunks
    and by the error that ends it, if any. *)
Inductive payload : Type :=
| Data (v : value)
| Stream (chunks : list string) (failure : option string).

(** The outside world: the answer of each provider to each request. *)
Definition network : Type := request -> result payload.

(** What the handler has written to the client. *)
Inductive chunk : Type :=
| Json (v : value)
| Text (s : string)
| Raw (v : value).

(** The Express response object. *)
Record res : Type := mkRes {
  statusCode : Z;
  res_headers : list (string * string);
  headersSent : bool;
  body : list chunk;
  finished : bool
}.

Definition fresh_res : res :=
  {| statusCode := 200; res_headers := []; headersSent := false;
     body := []; finished := false |}.

(** State of one request: the upstream calls made so far, oldest first,
    and the response. *)
Record world : Type := mkWorld {
  calls : list request;
  response : res
}.

Definition start : world := {| calls := []; response := fresh_res |}.

(** Handler code: a state transformer that may throw. *)
Definition M (A : Type) : Type := world -> world * result A.

Definition ret {A} (a : A) : M A := fun w => (w, Ok a).

Definition bind {A B} (m : M A) (k : A -> M B) : M B :=
  fun w =>
    match m w with
    | (w', Ok a) => k a w'
    | (w', Throw e) => (w', Throw e)
    end.

Definition throw {A} (e : exn) : M A := fun w => (w, Throw e).

(** [try { m } catch (e) { handler e }]. *)
Definition try_catch {A} (m : M A) (handler : exn -> M A) : M A :=
  fun w =>
    match m w with
    | (w', Ok a) => (w', Ok a)
    | (w', Throw e) => handler e w'
    end.

Declare Scope js_scope.
Delimit Scope js_scope with js.
Notation "x <- m ;; k" := (bind m (fun x => k))
  (at level 61, m at next level, right associativity) : js_scope.
Notation "m ;; k" := (bind m (fun _ => k))
  (at level 61, right associativity) : js_scope.
Local Open Scope js_scope.

(** [v.k]: a [TypeError] on [undefined] and [null]. *)
Definition member (v : value) (k : string) : M value :=
  if nullish v then
    throw (TypeError ("Cannot read properties of "
                      ++ match v with VNull => "null" | _ => "undefined" end))
  else ret (prop v k).

Definition update_res (f : res -> res) : M unit :=
  fun w => ({| calls := calls w; response := f (response w) |}, Ok tt).

Definition res_setHeader (k v : string) : M unit :=
  update_res (fun r =>
    {| statusCode := statusCode r; res_headers := res_headers r ++ [(k, v)];
       headersSent := headersSent r; body := body r; finished := finished r |}).

Definition res_status (code : Z) : M unit :=
  update_res (fun r =>
    {| statusCode := code; res_headers := res_headers r;
       headersSent := headersSent r; body := body r; finished := finished r |}).

Definition emit (c : chunk) (last : bool) : M unit :=
  update_res (fun r =>
    {| statusCode := statusCode r; res_headers := res_headers r;
       headersSent := true; body := body r ++ [c];
       finished := last || finished r |}).

Definition res_json (v : value) : M unit := emit (Json v) true.
Definition res_send_text (s : string) : M unit := emit (Text s) true.
Definition res_send (v : value) : M unit := emit (Raw v) true.
Definition res_write (s : string) : M unit := emit (Text s) false.

(** [res.end()] and [res.end(data)]. *)
Definition res_end : M unit :=
  update_res (fun r =>
    {| statusCode := statusCode r; res_headers := res_headers r;
       headersSent := true; body := body r; finished := true |}).

Definition res_end_with (v : value) : M unit := emit (Raw v) true.

Definition get_headersSent : M bool :=
  fun w => (w, Ok (headersSent (response w))).

(** [await axios.post(...)] and [await axios({...})]: the call is recorded,
    the provider answers. *)
Definition axios (net : network) (rq : request) : M payload :=
  fun w =>
    ({| calls := calls w ++ [rq]; response := response w |}, net rq).

(** The [data] of a call that expects parsed data.  Axios yields a stream
    only when asked for one; a stream object has none of the data keys. *)
Definition axios_data (net : network) (rq : request) : M value :=
  p <- axios net rq ;;
  match p with
  | Data v => ret v
  | Stream _ _ => ret (VObj [])
  end.

(** [process.env]. *)
Definition env : Type := string -> option string.

Definition getenv (e : env) (k : string) : value :=
  match e k with
  | Some s => VStr s
  | None => VUndefined
  end.

(** A string value inside a template literal. *)
Definition interpolate (v : value) : string :=
  match v with
  | VStr s => s
  | _ => "undefined"
  end.

Definition run {A} (m : M A) : world * result A := m start.

(** ** The Gemini message translator *)

Record text_part : Type := mkPart { text : string }.
Record content : Type := mkContent { role : string; parts : list text_part }.
Record instruction : Type := mkInstruction { instruction_parts : list text_part }.

(** The object [formatMessagesForGemini] returns. *)
Record formatted : Type := mkFormatted {
  contents : list content;
  systemInstruction : option instruction
}.

Definition string_of (v : value) : string :=
  match v with
  | VStr s => s
  | _ => ""
  end.

(** The body of the [forEach] callback, on the two accumulators
    [contents] and [systemInstruction]. *)
Definition format_step (acc : formatted) (msg : value) : formatted :=
  if negb (truthy msg)
     || negb (typeof msg =? "object")%string
     || negb (typeof (prop msg "content") =? "string")%string
  then acc
  else
    let text := trim (string_of (prop msg "content")) in
    if negb (truthy (VStr text)) then acc
    else if is_str (prop msg "role") "system" then
      match systemInstruction acc with
      | None =>
          {| contents := contents acc;
             systemInstruction := Some {| instruction_parts := [ {| text := text |} ] |} |}
      | Some si =>
          {| contents := contents acc;
             systemInstruction :=
               Some {| instruction_parts := instruction_parts si ++ [ {| text := text |} ] |} |}
      end
    else
      let role :=
        if is_str (prop msg "role") "assistant" || is_str (prop msg "role") "model"
        then "model" else "user" in
      {| contents := contents acc ++ [ {| role := role; parts := [ {| text := text |} ] |} ];
         systemInstruction := systemInstruction acc |}.

Definition formatMessagesForGemini (messages : value) : formatted :=
  match messages with
  | VUndefined =>
      fold_left format_step [] {| contents := []; systemInstruction := None |}
  | VArr msgs =>
      fold_left format_step msgs {| contents := []; systemInstruction := None |}
  | _ => {| contents := []; systemInstruction := None |}
  end.

Definition part_value (p : text_part) : value := VObj [("text", VStr (text p))].

Definition content_value (c : content) : value :=
  VObj [("role", VStr (role c)); ("parts", VArr (map part_value (parts c)))].

Definition instruction_value (si : instruction) : value :=
  VObj [("parts", VArr (map part_value (instruction_parts si)))].

(** ** The handlers *)

Section Server.

(** [JSON.parse] (which converts its argument to a string first; [None] is
    a [SyntaxError]) and [JSON.stringify] belong to the engine. *)
Variable JSON_parse : value -> option value.
Variable JSON_stringify : value -> string.

(** The outside world and the process environment of one request. *)
Variable net : network.
Variable process_env : env.

Definition sse_headers : M unit :=
  res_setHeader "Content-Type" "text/event-stream" ;;
  res_setHeader "Cache-Control" "no-cache" ;;
  res_setHeader "Connection" "keep-alive".

Fixpoint write_all (chunks : list string) : M unit :=
  match chunks with
  | [] => ret tt
  | c :: rest => res_write c ;; write_all rest
  end.

(** [openaiResponse.data.pipe(res)] with the [error] listener: the chunks
    are copied as they arrive; the end of the stream ends the response, an
    error of the stream is answered by the listener. *)
Definition pipe_to_client (p : payload) : M unit :=
  match p with
  | Data _ => throw (TypeError "openaiResponse.data.pipe is not a function")
  | Stream chunks failure =>
      write_all chunks ;;
      match failure with
      | None => res_end
      | Some _ =>
          sent <- get_headersSent ;;
          if negb sent then
            res_status 500 ;; res_send_text "Error streaming response from OpenAI."
          else res_end
      end
  end.

(** [app.post('/openai/chat', ...)]. *)
Definition openai_chat (req_body : value) : M unit :=
  let OPENAI_API_KEY := getenv process_env "OPENAI_API_KEY" in
  body_model <- member req_body "model" ;;
  let model := or_else body_model (VStr "gpt-5-mini") in
  if negb (truthy OPENAI_API_KEY) then
    res_status 500 ;;
    res_json (VObj [("error", VStr "Server configuration error: OpenAI API key is missing.")])
  else
    try_catch
      (messages <- member req_body "messages" ;;
       if negb (truthy messages) then
         res_status 400 ;;
         res_json (VObj [("error", VStr "No messages provided in the request body for OpenAI chat.")])
       else
         let headers :=
           [("Content-Type", "application/json");
            ("Authorization", "Bearer " ++ interpolate OPENAI_API_KEY)] in
         let payload :=
           VObj [("model", model); ("messages", messages); ("stream", VBool true)] in
         openaiResponse <-
           axios net {| url := "https://api.openai.com/v1/chat/completions";
                        data := payload; req_headers := headers;
                        responseType := "stream" |} ;;
         sse_headers ;;
         pipe_to_client openaiResponse)
      (fun error =>
         sent <- get_headersSent ;;
         if negb sent then
           res_status (status_or_500 error) ;;
           (* The call asks for a stream: when there is an upstream response,
              [error.response.data] is the stream object, which is truthy and
              on which [res.json] throws (a circular structure). *)
           if has_response error then
             throw (TypeError "Converting circular structure to JSON")
           else
             res_json (VObj [("error", VStr "Failed to communicate with OpenAI API");
                             ("details", VStr (exn_message error))])
         else res_end).

(** [app.post('/elevenlabs-tts', ...)]. *)
Definition elevenlabs_tts (req_body : value) : M unit :=
  let ELEVENLABS_API_KEY := getenv process_env "ELEVENLABS_API_KEY" in
  let ELEVENLABS_VOICE_ID :=
    or_else (getenv process_env "ELEVENLABS_VOICE_ID") (VStr "21m00Tcm4TlvDq8ikWAM") in
  if negb (truthy ELEVENLABS_API_KEY) then
    res_status 500 ;;
    res_json (VObj [("error", VStr "Server configuration error: ElevenLabs API key is missing.")])
  else
    textToSpeak <- member req_body "text" ;;
    if negb (truthy textToSpeak) then
      res_status 400 ;;
      res_json (VObj [("error", VStr "No text provided for ElevenLabs TTS.")])
    else
      try_catch
        (elevenLabsResponse <-
           axios_data net
             {| url := "https://api.elevenlabs.io/v1/text-to-speech/"
                       ++ interpolate ELEVENLABS_VOICE_ID;
                data :=
                  VObj [("text", textToSpeak);
                        ("model_id", VStr "eleven_multilingual_v2");
                        ("voice_settings",
                         VObj [("stability", VNum (75 # 100));
                               ("similarity_boost", VNum (75 # 100))])];
                req_headers :=
                  [("Accept", "audio/mpeg");
                   ("Content-Type", "application/json");
                   ("xi-api-key", interpolate ELEVENLABS_API_KEY)];
                responseType := "arraybuffer" |} ;;
         res_setHeader "Content-Type" "audio/mpeg" ;;
         res_setHeader "Cache-Control" "no-cache" ;;
         res_setHeader "Connection" "keep-alive" ;;
         res_end_with elevenLabsResponse)
        (fun error =>
           sent <- get_headersSent ;;
           if negb sent then
             (* The call asks for an [arraybuffer]: [error.response.data] is a
                Buffer, truthy even when it is empty; [exn_data] is its text. *)
             if has_response error then
               try_catch
                 (match JSON_parse (exn_data error) with
                  | None => throw (Error "SyntaxError")
                  | Some errorDetails =>
                      detail <- member errorDetails "detail" ;;
                      res_status (status_or_500 error) ;;
                      res_json
                        (VObj [("error", VStr "Failed to communicate with ElevenLabs API");
                               ("details",
                                or_else (or_else detail (prop errorDetails "message"))
                                        (VStr "Unknown error"))])
                  end)
                 (fun parseError =>
                    res_status (status_or_500 error) ;;
                    res_send (exn_data error))
             else
               res_status (status_or_500 error) ;;
               res_json (VObj [("error", VStr "Failed to communicate with ElevenLabs API");
                               ("details", VStr (exn_message error))])
           else res_end).

(** The fixed system message of the moderation call. *)
Definition moderation_instruction : string :=
  "You are Graxybot's safety filter and prompt polisher. Analyse the user's request for disallowed content (nudity, sexual content, minors, gore, hate, violence, self-harm, explicit body descriptions, sexual contexts, fetish content, or any other unsafe or policy-breaking material)."
  ++ newline ++
  "Return a JSON object with this exact structure:"
  ++ newline ++
  "{" ++ dquote ++ "status" ++ dquote ++ ":" ++ dquote ++ "safe" ++ dquote ++ "|"
  ++ dquote ++ "unsafe" ++ dquote ++ "," ++ dquote ++ "optimized_prompt" ++ dquote ++ ":"
  ++ dquote ++ "string" ++ dquote ++ "," ++ dquote ++ "response" ++ dquote ++ ":"
  ++ dquote ++ "string" ++ dquote ++ "}"
  ++ newline ++
  "- If the prompt is unsafe, set status to " ++ dquote ++ "unsafe" ++ dquote
  ++ ", leave optimized_prompt empty, and craft a short, laid-back, all-lowercase, lightly funny response in the "
  ++ dquote ++ "response" ++ dquote
  ++ " field explaining (without repeating the explicit request) why you're refusing, in Graxybot's informal tone. Keep it under 25 words."
  ++ newline ++
  "- If the prompt is allowed, set status to " ++ dquote ++ "safe" ++ dquote
  ++ ", produce an upgraded concise art-generation prompt in optimized_prompt (max 40 words, descriptive, no first-person language), and set response to an empty string."
  ++ newline ++
  "Respond with JSON only.".

Definition moderation_request (prompt : string) (apiKey : value) : request :=
  {| url := "https://api.openai.com/v1/chat/completions";
     data :=
       VObj [("model", VStr "gpt-4.1-mini");
             ("messages",
              VArr [VObj [("role", VStr "system");
                          ("content", VStr moderation_instruction)];
                    VObj [("role", VStr "user"); ("content", VStr prompt)]]);
             ("temperature", VNum (3 # 10));
             ("max_tokens", VNum (inject_Z 300))];
     req_headers :=
       [("Content-Type", "application/json");
        ("Authorization", "Bearer " ++ interpolate apiKey)];
     responseType := "json" |}.

(** [moderationResponse.data?.choices?.[0]?.message?.content]. *)
Definition moderation_content (response_data : value) : value :=
  opt_prop (opt_prop (opt_elem0 (opt_prop response_data "choices")) "message") "content".

(** [evaluateAndOptimizeImagePrompt(prompt, apiKey)]. *)
Definition evaluateAndOptimizeImagePrompt (prompt : string) (apiKey : value) : M value :=
  response_data <- axios_data net (moderation_request prompt apiKey) ;;
  let content := moderation_content response_data in
  if negb (truthy content) then throw (Error "Invalid moderation response")
  else
    match JSON_parse content with
    | None => throw (Error "Failed to parse moderation response JSON")
    | Some parsed =>
        if negb (truthy parsed)
           || negb (typeof parsed =? "object")%string
           || negb (truthy (prop parsed "status"))
        then throw (Error "Moderation response missing required fields")
        else ret parsed
    end.

(** [xs.find(pred)] on a list, for a predicate that may throw. *)
Fixpoint find_first (pred : value -> M bool) (xs : list value) : M value :=
  match xs with
  | [] => ret VUndefined
  | x :: rest =>
      hit <- pred x ;;
      if hit then ret x else find_first pred rest
  end.

(** [v.find(pred)]: only an array has the method. *)
Definition array_find (v : value) (pred : value -> M bool) : M value :=
  match v with
  | VArr xs => find_first pred xs
  | _ => throw (TypeError "responseParts.find is not a function")
  end.

(** [xs.map(f)] on a list, for a callback that may throw. *)
Fixpoint map_each {A} (f : value -> M A) (xs : list value) : M (list A) :=
  match xs with
  | [] => ret []
  | x :: rest =>
      y <- f x ;;
      ys <- map_each f rest ;;
      ret (y :: ys)
  end.

Definition array_map {A} (v : value) (f : value -> M A) : M (list A) :=
  match v with
  | VArr xs => map_each f xs
  | _ => throw (TypeError "parts.map is not a function")
  end.

(** [(part) => part.inlineData && part.inlineData.data], as a condition. *)
Definition has_inline_data (part : value) : M bool :=
  inlineData <- member part "inlineData" ;;
  if truthy inlineData then ret (truthy (prop inlineData "data")) else ret false.

Definition image_url (key : value) : string :=
  "https://generativelanguage.googleapis.com/v1beta/models/gemini-2.0-flash-preview-image-generation:generateContent?key="
  ++ interpolate key.

(** The parts of the image request: the reference image, if the body has
    one with data, then the prompt. *)
Definition image_parts (referenceImage finalPrompt : value) : list value :=
  (if truthy referenceImage && truthy (prop referenceImage "data") then
     [VObj [("inlineData",
             VObj [("data", prop referenceImage "data");
                   ("mimeType", or_else (prop referenceImage "mimeType") (VStr "image/png"))])]]
   else [])
  ++ [VObj [("text", finalPrompt)]].

Definition image_request (key referenceImage finalPrompt : value) : request :=
  {| url := image_url key;
     data :=
       VObj [("contents",
              VArr [VObj [("role", VStr "user");
                          ("parts", VArr (image_parts referenceImage finalPrompt))]]);
             ("generationConfig",
              VObj [("responseModalities", VArr [VStr "IMAGE"; VStr "TEXT"])])];
     req_headers := [("Content-Type", "application/json")];
     responseType := "json" |}.

(** What the moderation block of the image handler decides: the response
    has been sent ([return res.status(400)...]), or generation goes on with
    a prompt. *)
Inductive gate : Type :=
| Rejected
| Proceed (finalPrompt : value).

(** Lines 289-305 of the image handler: the moderation block. *)
Definition moderate (prompt : string) : M gate :=
  let OPENAI_API_KEY := getenv process_env "OPENAI_API_KEY" in
  if truthy OPENAI_API_KEY then
    try_catch
      (moderationResult <- evaluateAndOptimizeImagePrompt prompt OPENAI_API_KEY ;;
       if negb (is_str (prop moderationResult "status") "safe") then
         let message :=
           or_else (prop moderationResult "response") (VStr "whoa, let's keep it PG.") in
         res_status 400 ;;
         res_json (VObj [("error", VStr "unsafe_prompt"); ("message", message)]) ;;
         ret Rejected
       else
         ret (Proceed (or_else (prop moderationResult "optimized_prompt") (VStr prompt))))
      (fun modErr => ret (Proceed (VStr prompt)))
  else ret (Proceed (VStr prompt)).

(** Lines 307-358: the call of the image model and the reading of its answer. *)
Definition generate (GEMINI_API_KEY req_body finalPrompt : value) : M unit :=
  referenceImage <- member req_body "referenceImage" ;;
  geminiResponse <-
    axios_data net (image_request GEMINI_API_KEY referenceImage finalPrompt) ;;
  let candidates := or_else (opt_prop geminiResponse "candidates") (VArr []) in
  let responseParts :=
    or_else (opt_prop (opt_prop (elem0 candidates) "content") "parts") (VArr []) in
  inlinePart <- array_find responseParts has_inline_data ;;
  if negb (truthy inlinePart) then
    res_status 502 ;;
    res_json (VObj [("error", VStr "Gemini did not return image data.");
                    ("details", geminiResponse)])
  else
    inlineData <- member inlinePart "inlineData" ;;
    res_json (VObj [("image", prop inlineData "data");
                    ("mimeType", or_else (prop inlineData "mimeType") (VStr "image/png"))]).

(** The [catch] block of the image handler. *)
Definition image_failure (error : exn) : M unit :=
  res_status (status_or_500 error) ;;
  res_json (VObj [("error", VStr "Failed to communicate with Gemini image API");
                  ("details", details_of error)]).

(** [typeof req.body.prompt === 'string' ? req.body.prompt.trim() : '']. *)
Definition image_prompt (body_prompt : value) : string :=
  if (typeof body_prompt =? "string")%string then trim (string_of body_prompt) else "".

(** [app.post('/gemini/image', ...)]. *)
Definition gemini_image (req_body : value) : M unit :=
  let GEMINI_API_KEY := getenv process_env "GEMINI_API_KEY" in
  if negb (truthy GEMINI_API_KEY) then
    res_status 500 ;;
    res_json (VObj [("error", VStr "Server configuration error: Gemini API key is missing.")])
  else
    body_prompt <- member req_body "prompt" ;;
    let prompt := image_prompt body_prompt in
    if negb (truthy (VStr prompt)) then
      res_status 400 ;;
      res_json (VObj [("error", VStr "No prompt provided for image generation.")])
    else
      try_catch
        (decision <- moderate prompt ;;
         match decision with
         | Rejected => ret tt
         | Proceed finalPrompt => generate GEMINI_API_KEY req_body finalPrompt
         end)
        image_failure.

Definition chat_url (key : value) : string :=
  "https://generativelanguage.googleapis.com/v1beta/models/gemini-2.0-flash:generateContent?key="
  ++ interpolate key.

Definition chat_request (key : value) (f : formatted) : request :=
  {| url := chat_url key;
     data :=
       VObj ([("contents", VArr (map content_value (contents f)))]
             ++ match systemInstruction f with
                | Some si => [("systemInstruction", instruction_value si)]
                | None => []
                end);
     req_headers := [];
     responseType := "json" |}.

(** The text of a part: [typeof part.text === 'string' ? part.text : '']. *)
Definition part_text (part : value) : M string :=
  t <- member part "text" ;;
  if (typeof t =? "string")%string then ret (string_of t) else ret "".

Definition event_payload (text : string) : value :=
  VObj [("choices", VArr [VObj [("delta", VObj [("content", VStr text)])]])].

Definition done_line : string := "data: [DONE]" ++ newline ++ newline.

Definition messages_length (v : value) : nat :=
  match v with
  | VArr xs => length xs
  | _ => 0%nat
  end.

(** [app.post('/gemini/chat', ...)]. *)
Definition gemini_chat (req_body : value) : M unit :=
  let GEMINI_API_KEY := getenv process_env "GEMINI_API_KEY" in
  if negb (truthy GEMINI_API_KEY) then
    res_status 500 ;;
    res_json (VObj [("error", VStr "Server configuration error: Gemini API key is missing.")])
  else
    let messages := prop (or_else req_body (VObj [])) "messages" in
    if negb (truthy messages) || negb (isArray messages)
       || (messages_length messages =? 0)%nat
    then
      res_status 400 ;;
      res_json (VObj [("error", VStr "No messages provided for Gemini chat.")])
    else
      let f := formatMessagesForGemini messages in
      if (length (contents f) =? 0)%nat then
        res_status 400 ;;
        res_json (VObj [("error", VStr "No valid messages to send to Gemini.")])
      else
        sse_headers ;;
        try_catch
          (geminiResponse <- axios_data net (chat_request GEMINI_API_KEY f) ;;
           let candidates := or_else (opt_prop geminiResponse "candidates") (VArr []) in
           let primaryCandidate := elem0 candidates in
           let parts :=
             or_else (opt_prop (opt_prop primaryCandidate "content") "parts") (VArr []) in
           texts <- array_map parts part_text ;;
           let text := join texts in
           res_write ("data: " ++ JSON_stringify (event_payload text) ++ newline ++ newline) ;;
           res_write done_line ;;
           res_end)
          (fun error =>
             sent <- get_headersSent ;;
             if negb sent then
               res_status (status_or_500 error) ;;
               res_json (VObj [("error", VStr "Failed to communicate with Gemini chat API");
                               ("details", details_of error)])
             else
               res_write
                 ("data: "
                  ++ JSON_stringify
                       (VObj [("error", VStr "Failed to communicate with Gemini chat API");
                              ("details", details_of error)])
                  ++ newline ++ newline) ;;
               res_write done_line ;;
               res_end).

End Server.

(** * Vocabulary of the statements *)

(** ** The translator, turn by turn *)

(** The text a turn contributes: its content, trimmed, when the turn is an
    object whose content is a string that is not blank. *)
Definition turn_text (msg : value) : option string :=
  if negb (truthy msg)
     || negb (typeof msg =? "object")%string
     || negb (typeof (prop msg "content") =? "string")%string
  then None
  else
    let t := trim (string_of (prop msg "content")) in
    if (t =? "")%string then None else Some t.

Definition is_system (msg : value) : bool := is_str (prop msg "role") "system".

Definition target_role (msg : value) : string :=
  if is_str (prop msg "role") "assistant" || is_str (prop msg "role") "model"
  then "model" else "user".

(** The entries of [contents] a turn accounts for. *)
Definition entry (msg : value) : list content :=
  match turn_text msg with
  | Some t =>
      if is_system msg then []
      else [ {| role := target_role msg; parts := [ {| text := t |} ] |} ]
  | None => []
  end.

(** The instruction parts a turn accounts for. *)
Definition system_part (msg : value) : list text_part :=
  match turn_text msg with
  | Some t => if is_system msg then [ {| text := t |} ] else []
  | None => []
  end.

(** Appending parts to the instruction block built so far. *)
Definition extend (si : option instruction) (ps : list text_part) : option instruction :=
  match ps with
  | [] => si
  | _ :: _ =>
      match si with
      | None => Some {| instruction_parts := ps |}
      | Some i => Some {| instruction_parts := instruction_parts i ++ ps |}
      end
  end.

(** The texts of the instruction block: the trimmed contents of the system
    turns whose content is a string that is not blank, in their order. *)
Definition system_texts (msgs : list value) : list string :=
  flat_map
    (fun m =>
       match turn_text m with
       | Some t => if is_system m then [t] else []
       | None => []
       end)
    msgs.

(** The raw contents of the system turns, in their order. *)
Definition system_contents (msgs : list value) : list string :=
  flat_map
    (fun m => if is_system m then [string_of (prop m "content")] else [])
    msgs.

Definition only_system (msgs : list value) : bool :=
  forallb
    (fun m =>
       match turn_text m with
       | None => true
       | Some _ => is_system m
       end)
    msgs.

(** ** Worlds and replies *)

Definition called (w : world) (rq : request) : world :=
  {| calls := calls w ++ [rq]; response := response w |}.

Definition replied (w : world) (code : Z) (v : value) : world :=
  {| calls := calls w;
     response :=
       {| statusCode := code; res_headers := res_headers (response w);
          headersSent := true; body := body (response w) ++ [Json v];
          finished := true |} |}.

Definition json_reply (code : Z) (headers : list (string * string)) (v : value) : res :=
  {| statusCode := code; res_headers := headers; headersSent := true;
     body := [Json v]; finished := true |}.

Definition sse_reply (lines : list string) : res :=
  {| statusCode := 200;
     res_headers :=
       [("Content-Type", "text/event-stream"); ("Cache-Control", "no-cache");
        ("Connection", "keep-alive")];
     headersSent := true;
     body := map Text lines;
     finished := true |}.

Definition base (w : world) : world := {| calls := []; response := response w |}.

Definition graft {A} (w : world) (out : world * result A) : world * result A :=
  ({| calls := calls w ++ calls (fst out); response := response (fst out) |}, snd out).

(** [framed m]: what [m] does depends on the response only, and the calls
    it makes are added to those made before. *)
Definition framed {A} (m : M A) : Prop := forall w, m w = graft w (m (base w)).

(** [quiet m]: [m] makes no upstream call. *)
Definition quiet {A} (m : M A) : Prop := forall w, calls (fst (m w)) = calls w.

(** ** The moderation and the answers of the models *)

(** What [evaluateAndOptimizeImagePrompt] returns or throws, as a function
    of the answer of the moderation provider. *)
Definition verdict_of (JSON_parse : value -> option value) (answer : result payload)
  : result value :=
  match answer with
  | Throw e => Throw e
  | Ok p =>
      let content :=
        moderation_content (match p with Data v => v | Stream _ _ => VObj [] end) in
      if negb (truthy content) then Throw (Error "Invalid moderation response")
      else
        match JSON_parse content with
        | None => Throw (Error "Failed to parse moderation response JSON")
        | Some parsed =>
            if negb (truthy parsed)
               || negb (typeof parsed =? "object")%string
               || negb (truthy (prop parsed "status"))
            then Throw (Error "Moderation response missing required fields")
            else Ok parsed
        end
  end.

(** The ways the moderation of a prompt can be unavailable: no credential,
    a call that fails, an answer without content, a content that is not
    JSON, a parsed value that is no object with a status. *)
Inductive moderation_unavailable
    (JSON_parse : value -> option value) (net : network) (e : env) (prompt : string)
  : Prop :=
| no_credential :
    truthy (getenv e "OPENAI_API_KEY") = false ->
    moderation_unavailable JSON_parse net e prompt
| call_failed (err : exn) :
    truthy (getenv e "OPENAI_API_KEY") = true ->
    net (moderation_request prompt (getenv e "OPENAI_API_KEY")) = Throw err ->
    moderation_unavailable JSON_parse net e prompt
| no_content (d : value) :
    truthy (getenv e "OPENAI_API_KEY") = true ->
    net (moderation_request prompt (getenv e "OPENAI_API_KEY")) = Ok (Data d) ->
    truthy (moderation_content d) = false ->
    moderation_unavailable JSON_parse net e prompt
| not_json (d : value) :
    truthy (getenv e "OPENAI_API_KEY") = true ->
    net (moderation_request prompt (getenv e "OPENAI_API_KEY")) = Ok (Data d) ->
    JSON_parse (moderation_content d) = None ->
    moderation_unavailable JSON_parse net e prompt
| no_status (d parsed : value) :
    truthy (getenv e "OPENAI_API_KEY") = true ->
    net (moderation_request prompt (getenv e "OPENAI_API_KEY")) = Ok (Data d) ->
    JSON_parse (moderation_content d) = Some parsed ->
    (typeof parsed =? "object")%string && truthy (prop parsed "status") = false ->
    moderation_unavailable JSON_parse net e prompt.

(** The parts the image handler scans:
    [(geminiResponse.data?.candidates || [])[0]?.content?.parts || []]. *)
Definition response_parts (response_data : value) : value :=
  let candidates := or_else (opt_prop response_data "candidates") (VArr []) in
  or_else (opt_prop (opt_prop (elem0 candidates) "content") "parts") (VArr []).

(** A part with inline binary data. *)
Definition inline (part : value) : bool :=
  truthy (prop part "inlineData") && truthy (prop (prop part "inlineData") "data").

Definition well_formed (ps : list value) : bool :=
  forallb (fun p => negb (nullish p)) ps.

(** What the handler does with the answer of the image model. *)
Definition read_image (geminiResponse : value) : M unit :=
  inlinePart <- array_find (response_parts geminiResponse) has_inline_data ;;
  if negb (truthy inlinePart) then
    res_status 502 ;;
    res_json (VObj [("error", VStr "Gemini did not return image data.");
                    ("details", geminiResponse)])
  else
    inlineData <- member inlinePart "inlineData" ;;
    res_json (VObj [("image", prop inlineData "data");
                    ("mimeType", or_else (prop inlineData "mimeType") (VStr "image/png"))]).

(** The text of a part of the answer, the empty string if it has none. *)
Definition text_of_part (part : value) : string :=
  match prop part "text" with
  | VStr s => s
  | _ => ""
  end.

(** ** The routes *)

(** The routes of the application: the four POST handlers, and the 404
    responder for every other path. *)
Definition post
    (JSON_parse : value -> option value) (JSON_stringify : value -> string)
    (net : network) (e : env) (path : string) (req_body : value) : M unit :=
  if (path =? "/openai/chat")%string then openai_chat net e req_body
  else if (path =? "/elevenlabs-tts")%string then elevenlabs_tts JSON_parse net e req_body
  else if (path =? "/gemini/image")%string then gemini_image JSON_parse net e req_body
  else if (path =? "/gemini/chat")%string then gemini_chat JSON_stringify net e req_body
  else res_status 404 ;; res_send_text "404 - Not Found".


(** ** Sample requests, environments and providers *)

Definition turn (r c : string) : value :=
  VObj [("role", VStr r); ("content", VStr c)].

Definition two_system_turns : list value :=
  [ turn "system" ("be brief" ++ newline ++ newline); turn "system" "be kind" ].

Definition tool_turn : value := turn "tool" "hi".
Definition blank_turn : value := turn "user" ("  " ++ newline).

Definition sample_env (gemini openai eleven : option string) : env :=
  fun k =>
    if (k =? "GEMINI_API_KEY")%string then gemini
    else if (k =? "OPENAI_API_KEY")%string then openai
    else if (k =? "ELEVENLABS_API_KEY")%string then eleven
    else None.

Definition both_keys : env := sample_env (Some "g-key") (Some "o-key") (Some "e-key").
Definition gemini_only : env := sample_env (Some "g-key") None None.

Definition image_body (p : string) : value := VObj [("prompt", VStr p)].

(** A [JSON.parse] that knows the given texts. *)
Definition parse_table (table : list (string * value)) : value -> option value :=
  fun v =>
    match v with
    | VStr s =>
        (fix find (t : list (string * value)) : option value :=
           match t with
           | [] => None
           | (k, x) :: rest => if (k =? s)%string then Some x else find rest
           end) table
    | _ => None
    end.

(** The data of a chat completion with one message. *)
Definition chat_completion (message_content : value) : value :=
  VObj [("choices", VArr [VObj [("message", VObj [("content", message_content)])]])].

(** The data of a Gemini answer with one candidate. *)
Definition gemini_answer (ps : list value) : value :=
  VObj [("candidates", VArr [VObj [("content", VObj [("parts", VArr ps)])]])].

Definition is_openai (rq : request) : bool :=
  (url rq =? "https://api.openai.com/v1/chat/completions")%string.

(** A world in which OpenAI and Gemini each give one fixed answer. *)
Definition two_providers (openai gemini : result payload) : network :=
  fun rq => if is_openai rq then openai else gemini.

Definition png_part : value :=
  VObj [("inlineData", VObj [("data", VStr "iVBORw0KGgo="); ("mimeType", VStr "image/png")])].

Definition leaky_refusal : value :=
  VObj [("status", VStr "unsafe"); ("optimized_prompt", VStr "");
        ("response", VStr "nope, not going to draw gore today")].

Definition safe_verdict : value :=
  VObj [("status", VStr "safe");
        ("optimized_prompt", VStr "a cat in a spacesuit, detailed, photorealistic");
        ("response", VStr "")].

Definition odd_verdict : value :=
  VObj [("status", VStr "maybe"); ("optimized_prompt", VStr "a cat"); ("response", VStr "")].

(** ** White space at the ends of a string *)

(** The string starts, or ends, with a white space of ECMAScript. *)
Definition starts_with_space (s : string) : bool :=
  match strip_any white_space s with
  | Some _ => true
  | None => false
  end.

Definition ends_with_space (s : string) : bool :=
  match strip_any (map rev_string white_space) (rev_string s) with
  | Some _ => true
  | None => false
  end.

(** The parts of the instruction block, none when there is no block. *)
Definition instruction_texts (f : formatted) : list text_part :=
  match systemInstruction f with
  | Some i => instruction_parts i
  | None => []
  end.

(** The turns of a [messages] value: those of an array, none otherwise. *)
Definition turns_of (messages : value) : list value :=
  match messages with
  | VArr msgs => msgs
  | _ => []
  end.

(** A text as the translator forwards it: not empty, already trimmed. *)
Definition forwarded_text (t : string) : Prop := t <> "" /\ trim t = t.

(** No pattern of the list is the empty string. *)
Definition no_empty (ws : list string) : bool := forallb (fun p => negb (p =? "")%string) ws.

(** The turn has a usable content: it is an object whose content is a
    string with something else than white space. *)
Definition usable (msg : value) : bool :=
  match turn_text msg with
  | Some _ => true
  | None => false
  end.

(** An entry of [contents] as the translator builds it: the role is user or
    model and there is one text part, with a forwarded text. *)
Definition forwarded_entry (c : content) : Prop :=
  (role c = "user" \/ role c = "model")
  /\ exists t, parts c = [ {| text := t |} ] /\ forwarded_text t.

(** The status and the details the catch blocks answer with, for an error
    of axios given by its upstream response, if any, and its message. *)
Definition relayed_status (upstream : option (Z * value)) : Z :=
  match upstream with
  | Some (st, _) => if st =? 0 then 500 else st
  | None => 500
  end.

Definition relayed_details (upstream : option (Z * value)) (message : string) : value :=
  match upstream with
  | Some (_, d) => if truthy d then d else VStr message
  | None => VStr message
  end.

(** [stateless m]: [m] neither calls a provider nor touches the response,
    and what it returns does not depend on them. *)
Definition stateless {A} (m : M A) : Prop := forall w, m w = (w, snd (m start)).

(** The headers of an event stream, as the chat routes set them. *)
Definition event_stream_headers : list (string * string) :=
  [("Content-Type", "text/event-stream"); ("Cache-Control", "no-cache");
   ("Connection", "keep-alive")].

(** The texts the Gemini chat route reads from the data of an answer, or
    the error the reading throws. *)
Definition chat_texts (d : value) : result (list string) :=
  snd (array_map (response_parts d) part_text start).

(** The data of what axios resolved with. *)
Definition data_of (p : payload) : value :=
  match p with
  | Data v => v
  | Stream _ _ => VObj []
  end.

(** The [messages] of a body, as the Gemini chat route reads them. *)
Definition body_messages (req_body : value) : value :=
  prop (or_else req_body (VObj [])) "messages".

(** The request the OpenAI chat route sends for a body. *)
Definition openai_request (key req_body : value) : request :=
  {| url := "https://api.openai.com/v1/chat/completions";
     data :=
       VObj [("model", or_else (prop req_body "model") (VStr "gpt-5-mini"));
             ("messages", prop req_body "messages");
             ("stream", VBool true)];
     req_headers :=
       [("Content-Type", "application/json");
        ("Authorization", "Bearer " ++ interpolate key)];
     responseType := "stream" |}.

(** The request the text-to-speech route sends for a body. *)
Definition tts_request (e : env) (req_body : value) : request :=
  {| url := "https://api.elevenlabs.io/v1/text-to-speech/"
            ++ interpolate (or_else (getenv e "ELEVENLABS_VOICE_ID")
                                    (VStr "21m00Tcm4TlvDq8ikWAM"));
     data :=
       VObj [("text", prop req_body "text");
             ("model_id", VStr "eleven_multilingual_v2");
             ("voice_settings",
              VObj [("stability", VNum (75 # 100));
                    ("similarity_boost", VNum (75 # 100))])];
     req_headers :=
       [("Accept", "audio/mpeg");
        ("Content-Type", "application/json");
        ("xi-api-key", interpolate (getenv e "ELEVENLABS_API_KEY"))];
     responseType := "arraybuffer" |}.

(** The response after the chunks of a stream have been written to it. *)
Definition wrote (r : res) (chunks : list string) : res :=
  {| statusCode := statusCode r; res_headers := res_headers r;
     headersSent := headersSent r || negb (length chunks =? 0)%nat;
     body := body r ++ map Text chunks;
     finished := finished r |}.

(** A reply that is not JSON: a text or raw data, sent at once. *)
Definition plain_reply (code : Z) (headers : list (string * string)) (c : chunk) : res :=
  {| statusCode := code; res_headers := headers; headersSent := true;
     body := [c]; finished := true |}.

(** The headers of an audio reply. *)
Definition audio_headers : list (string * string) :=
  [("Content-Type", "audio/mpeg"); ("Cache-Control", "no-cache");
   ("Connection", "keep-alive")].

(** How the text-to-speech route answers an error of its call. *)
Definition tts_error_reply (JSON_parse : value -> option value) (err : exn) : res :=
  if has_response err then
    match JSON_parse (exn_data err) with
    | Some errorDetails =>
        if nullish errorDetails then
          plain_reply (status_or_500 err) [] (Raw (exn_data err))
        else
          json_reply (status_or_500 err) []
            (VObj [("error", VStr "Failed to communicate with ElevenLabs API");
                   ("details",
                    or_else (or_else (prop errorDetails "detail")
                                     (prop errorDetails "message"))
                            (VStr "Unknown error"))])
    | None => plain_reply (status_or_500 err) [] (Raw (exn_data err))
    end
  else
    json_reply (status_or_500 err) []
      (VObj [("error", VStr "Failed to communicate with ElevenLabs API");
             ("details", VStr (exn_message err))]).

Definition eleven_keys : env := sample_env None None (Some "e-key").

Definition speak (t : string) : value := VObj [("text", VStr t)].

(** ** The image call and the reply to its answer, spelled out *)

(** The upstream response an error carries, if it is an error of axios
    with one. *)
Definition upstream_of (err : exn) : option (Z * value) :=
  match err with
  | AxiosError upstream _ => upstream
  | _ => None
  end.

(** The part of the image request that holds the reference image: none
    unless the body has a [referenceImage] object with truthy [data]. *)
Definition reference_parts (referenceImage : value) : list value :=
  match referenceImage with
  | VObj fields =>
      if truthy (lookup "data" fields) then
        [VObj [("inlineData",
                VObj [("data", lookup "data" fields);
                      ("mimeType",
                       if truthy (lookup "mimeType" fields) then lookup "mimeType" fields
                       else VStr "image/png")])]]
      else []
  | _ => []
  end.

(** The request to the image model for a key, a reference image and a
    prompt: one user turn whose last part is the prompt as text. *)
Definition expected_image_call (key referenceImage finalPrompt : value) : request :=
  {| url :=
       "https://generativelanguage.googleapis.com/v1beta/models/gemini-2.0-flash-preview-image-generation:generateContent?key="
       ++ interpolate key;
     data :=
       VObj [("contents",
              VArr [VObj [("role", VStr "user");
                          ("parts",
                           VArr (reference_parts referenceImage
                                 ++ [VObj [("text", finalPrompt)]]))]]);
             ("generationConfig",
              VObj [("responseModalities", VArr [VStr "IMAGE"; VStr "TEXT"])])];
     req_headers := [("Content-Type", "application/json")];
     responseType := "json" |}.

(** What scanning the parts of an answer for inline data ends with: the
    first part that has some, none, or a part that cannot be read ([null]
    or [undefined] met before any part with inline data; parts that are not
    an array). *)
Inductive scan : Type :=
| Found (part : value)
| Missing
| Broken.

Fixpoint scan_parts (ps : list value) : scan :=
  match ps with
  | [] => Missing
  | p :: rest =>
      if nullish p then Broken
      else if inline p then Found p
      else scan_parts rest
  end.

Definition scan_answer (d : value) : scan :=
  match response_parts d with
  | VArr ps => scan_parts ps
  | _ => Broken
  end.

(** The reply of the image route to the answer of the image model. *)
Definition image_reply (answer : result payload) (r : res) : Prop :=
  match answer with
  | Throw err =>
      r = json_reply (relayed_status (upstream_of err)) []
            (VObj [("error", VStr "Failed to communicate with Gemini image API");
                   ("details", relayed_details (upstream_of err) (exn_message err))])
  | Ok p =>
      match scan_answer (data_of p) with
      | Found part =>
          r = json_reply 200 []
                (VObj [("image", prop (prop part "inlineData") "data");
                       ("mimeType",
                        if truthy (prop (prop part "inlineData") "mimeType")
                        then prop (prop part "inlineData") "mimeType"
                        else VStr "image/png")])
      | Missing =>
          r = json_reply 502 []
                (VObj [("error", VStr "Gemini did not return image data.");
                       ("details", data_of p)])
      | Broken =>
          exists thrown,
            r = json_reply 500 []
                  (VObj [("error", VStr "Failed to communicate with Gemini image API");
                         ("details", VStr thrown)])
      end
  end.

(** ** The event of the synthesized stream, spelled out *)

Definition line_feed : ascii := ascii_of_nat 10.

Definition hex_digit (n : nat) : string :=
  String.substring n 1 "0123456789abcdef".

(** QuoteJSONString of ECMAScript, unit by unit: the quote, the backslash
    and the control characters are escaped, every other unit stands for
    itself. *)
Definition escape (c : ascii) : string :=
  let n := nat_of_ascii c in
  if (n =? 8)%nat then "\b"
  else if (n =? 9)%nat then "\t"
  else if (n =? 10)%nat then "\n"
  else if (n =? 12)%nat then "\f"
  else if (n =? 13)%nat then "\r"
  else if (n =? 34)%nat then "\" ++ dquote
  else if (n =? 92)%nat then "\\"
  else if (n <? 32)%nat then "\u00" ++ hex_digit (n / 16) ++ hex_digit (n mod 16)
  else String c EmptyString.

Fixpoint escape_all (s : string) : string :=
  match s with
  | EmptyString => EmptyString
  | String c rest => escape c ++ escape_all rest
  end.

Definition quote_json (s : string) : string := dquote ++ escape_all s ++ dquote.

(** The JSON text of [{choices:[{delta:{content:text}}]}]. *)
Definition event_text (text : string) : string :=
  "{" ++ dquote ++ "choices" ++ dquote ++ ":[{" ++ dquote ++ "delta" ++ dquote ++ ":{"
  ++ dquote ++ "content" ++ dquote ++ ":" ++ quote_json text ++ "}}]}".

(** The string holds no line feed. *)
Definition one_line (s : string) : bool :=
  forallb (fun c => negb (Ascii.eqb c line_feed)) (list_ascii_of_string s).

(** The lines of a text: what stands between its line feeds. *)
Fixpoint lines (s : string) : list string :=
  match s with
  | EmptyString => [EmptyString]
  | String c rest =>
      if Ascii.eqb c line_feed then EmptyString :: lines rest
      else
        match lines rest with
        | l :: ls => String c l :: ls
        | [] => [String c EmptyString]
        end
  end.

(** The text written to the client, chunk after chunk. *)
Fixpoint written (chunks : list chunk) : string :=
  match chunks with
  | [] => EmptyString
  | Text s :: rest => s ++ written rest
  | _ :: rest => written rest
  end.

(** The texts of the parts of a chat answer, when they can be read: the
    parts are an array and none is [null] or [undefined]. *)
Definition read_texts (parts : value) : option (list string) :=
  match parts with
  | VArr ps => if well_formed ps then Some (map text_of_part ps) else None
  | _ => None
  end.

(** [xs.join(sep)] for texts. *)
Fixpoint join_with (sep : string) (xs : list string) : string :=
  match xs with
  | [] => EmptyString
  | [x] => x
  | x :: rest => x ++ sep ++ join_with sep rest
  end.

(** A [JSON.stringify] for the values built from objects, arrays, strings,
    booleans and [null], which are those the chat route writes; a number
    is outside of it (written [null]). *)
Fixpoint stringify_text (v : value) : string :=
  match v with
  | VUndefined => "null"
  | VNull => "null"
  | VBool true => "true"
  | VBool false => "false"
  | VNum _ => "null"
  | VStr s => quote_json s
  | VArr xs => "[" ++ join_with "," (map stringify_text xs) ++ "]"
  | VObj fields =>
      "{" ++ join_with ","
               (map (fun kv => quote_json (fst kv) ++ ":" ++ stringify_text (snd kv)) fields)
      ++ "}"
  end.

Definition empty_status_verdict : value :=
  VObj [("status", VStr ""); ("optimized_prompt", VStr "a cat"); ("response", VStr "")].

(** * Verification *)

Lemma extend_nil si : extend si [] = si.
Proof. reflexivity. Qed.

Lemma extend_app si ps qs : extend (extend si ps) qs = extend si (ps ++ qs).
Proof.
  destruct ps as [|p ps]; [reflexivity|].
  destruct qs as [|q qs].
  - rewrite app_nil_r. reflexivity.
  - destruct si as [i|]; simpl; rewrite <- ?app_assoc; reflexivity.
Qed.

Lemma format_step_spec acc msg :
  format_step acc msg =
  {| contents := contents acc ++ entry msg;
     systemInstruction := extend (systemInstruction acc) (system_part msg) |}.
Proof.
  unfold format_step, entry, system_part, turn_text, is_system, target_role.
  destruct (negb (truthy msg) || negb (typeof msg =? "object")%string
            || negb (typeof (prop msg "content") =? "string")%string).
  - destruct acc; simpl; rewrite app_nil_r; reflexivity.
  - cbv zeta. unfold truthy.
    destruct (trim (string_of (prop msg "content")) =? "")%string; simpl.
    + destruct acc; simpl; rewrite app_nil_r; reflexivity.
    + destruct (is_str (prop msg "role") "system"); simpl.
      * destruct acc as [cs [i|]]; simpl; rewrite app_nil_r; reflexivity.
      * destruct acc; reflexivity.
Qed.

Lemma format_fold msgs : forall acc,
  fold_left format_step msgs acc =
  {| contents := contents acc ++ flat_map entry msgs;
     systemInstruction := extend (systemInstruction acc) (flat_map system_part msgs) |}.
Proof.
  induction msgs as [|m msgs IH]; intros acc; simpl.
  - rewrite app_nil_r. destruct acc; reflexivity.
  - rewrite IH, format_step_spec; simpl.
    rewrite extend_app, <- app_assoc. reflexivity.
Qed.

Lemma format_array msgs :
  formatMessagesForGemini (VArr msgs) =
  {| contents := flat_map entry msgs;
     systemInstruction := extend None (flat_map system_part msgs) |}.
Proof. unfold formatMessagesForGemini. rewrite format_fold. reflexivity. Qed.

(** ** C1: the instruction block *)

Example two_system_turns_formatted :
  formatMessagesForGemini (VArr two_system_turns) =
  {| contents := [];
     systemInstruction :=
       Some {| instruction_parts := [ {| text := "be brief" |}; {| text := "be kind" |} ] |} |}.
Proof. vm_compute. reflexivity. Qed.

(** C1, as stated, fails: two system turns give one block, but the block
    holds one text part per turn, not a single text, and the parts hold the
    trimmed contents, so that their concatenation is not the concatenation
    of the contents (the paragraph break that ends the first turn is gone). *)
Lemma system_turns_not_joined :
  let f := formatMessagesForGemini (VArr two_system_turns) in
  systemInstruction f =
    Some {| instruction_parts := [ {| text := "be brief" |}; {| text := "be kind" |} ] |}
  /\ systemInstruction f <>
     Some {| instruction_parts := [ {| text := join (system_contents two_system_turns) |} ] |}
  /\ join ["be brief"; "be kind"] <> join (system_contents two_system_turns).
Proof. vm_compute. repeat split; discriminate. Qed.

Lemma system_part_texts msgs :
  flat_map system_part msgs = map mkPart (system_texts msgs).
Proof.
  unfold system_texts.
  induction msgs as [|m msgs IH]; simpl; [reflexivity|].
  rewrite map_app, <- IH. f_equal.
  unfold system_part. destruct (turn_text m); [destruct (is_system m)|]; reflexivity.
Qed.

(** C1, amended: whatever the turn list, the translator builds at most one
    instruction block; it exists exactly when some system turn has a string
    content that is not blank, and its parts are the trimmed contents of
    those turns, one part per turn, in the original order.  The Gemini chat
    request carries that block, once, under [systemInstruction]. *)
Theorem system_turns_one_block (msgs : list value) (key : value) :
  let f := formatMessagesForGemini (VArr msgs) in
  systemInstruction f =
    match system_texts msgs with
    | [] => None
    | t :: ts => Some {| instruction_parts := map mkPart (t :: ts) |}
    end
  /\ data (chat_request key f) =
       VObj (("contents", VArr (map content_value (contents f)))
             :: match system_texts msgs with
                | [] => []
                | t :: ts =>
                    [("systemInstruction",
                      VObj [("parts",
                             VArr (map (fun x => VObj [("text", VStr x)]) (t :: ts)))])]
                end).
Proof.
  cbv zeta. rewrite format_array. cbn [systemInstruction contents].
  rewrite system_part_texts.
  unfold chat_request; cbn [data systemInstruction contents].
  destruct (system_texts msgs) as [|t ts]; simpl; split; try reflexivity.
  unfold instruction_value; simpl. rewrite map_map. reflexivity.
Qed.

(** ** C2: which turns are dropped *)

Example tool_turn_kept :
  contents (formatMessagesForGemini (VArr [tool_turn])) =
  [ {| role := "user"; parts := [ {| text := "hi" |} ] |} ].
Proof. vm_compute. reflexivity. Qed.

(** C2, as stated, fails: a turn whose role is none of system, user,
    assistant, model is not dropped, it becomes a user turn. *)
Lemma unrecognized_role_not_dropped :
  is_str (prop tool_turn "role") "system" = false
  /\ is_str (prop tool_turn "role") "user" = false
  /\ is_str (prop tool_turn "role") "assistant" = false
  /\ is_str (prop tool_turn "role") "model" = false
  /\ contents (formatMessagesForGemini (VArr [tool_turn])) <> [].
Proof. vm_compute. repeat split; discriminate. Qed.

(** C2, amended: a turn that is not an object whose content is a string with
    something else than white space contributes nothing, neither to the
    contents nor to the instruction block; a turn with such a content whose
    role is not system contributes exactly one entry, with role model for
    assistant and model and role user for every other role, recognized or
    not. *)
Theorem turns_dropped_or_kept (pre post : list value) (m : value) :
  (turn_text m = None ->
   formatMessagesForGemini (VArr (pre ++ m :: post)) =
   formatMessagesForGemini (VArr (pre ++ post)))
  /\ (forall t, turn_text m = Some t -> is_system m = false ->
      contents (formatMessagesForGemini (VArr (pre ++ m :: post))) =
      (contents (formatMessagesForGemini (VArr pre))
       ++ {| role := (if is_str (prop m "role") "assistant" || is_str (prop m "role") "model"
                      then "model" else "user");
             parts := [ {| text := t |} ] |}
       :: contents (formatMessagesForGemini (VArr post)))%list).
Proof.
  split.
  - intros H. rewrite !format_array, !flat_map_app. simpl.
    unfold entry, system_part. rewrite H. reflexivity.
  - intros t H Hs. rewrite !format_array, flat_map_app. simpl.
    unfold entry at 2. rewrite H, Hs. reflexivity.
Qed.

Lemma turns_dropped_or_kept_witness :
  formatMessagesForGemini (VArr ([turn "user" "a"] ++ blank_turn :: [turn "model" "b"])) =
  formatMessagesForGemini (VArr ([turn "user" "a"] ++ [turn "model" "b"]))
  /\ contents (formatMessagesForGemini (VArr ([turn "user" "a"] ++ tool_turn :: [turn "model" "b"]))) =
     (contents (formatMessagesForGemini (VArr [turn "user" "a"]))
      ++ {| role := "user"; parts := [ {| text := "hi" |} ] |}
      :: contents (formatMessagesForGemini (VArr [turn "model" "b"])))%list.
Proof.
  split.
  - apply (proj1 (turns_dropped_or_kept [turn "user" "a"] [turn "model" "b"] blank_turn)).
    vm_compute. reflexivity.
  - apply (proj2 (turns_dropped_or_kept [turn "user" "a"] [turn "model" "b"] tool_turn) "hi");
      vm_compute; reflexivity.
Defined.

(** ** C8: a conversation of system turns only *)

Lemma only_system_no_contents msgs :
  only_system msgs = true -> flat_map entry msgs = [].
Proof.
  unfold only_system.
  induction msgs as [|m msgs IH]; simpl; [reflexivity|].
  intros H. apply andb_prop in H as [Hm Hrest].
  rewrite (IH Hrest), app_nil_r.
  unfold entry. destruct (turn_text m); [rewrite Hm|]; reflexivity.
Qed.

(** C8: when every turn of a non-empty list is a system turn or is dropped
    for its content, the translator returns no contents and the Gemini chat
    handler answers 400, no valid messages, without any upstream call. *)
Theorem only_system_turns_rejected
    (JSON_stringify : value -> string) (net : network) (e : env)
    (req_body : value) (msgs : list value) :
  truthy (getenv e "GEMINI_API_KEY") = true ->
  prop (or_else req_body (VObj [])) "messages" = VArr msgs ->
  msgs <> [] ->
  only_system msgs = true ->
  contents (formatMessagesForGemini (VArr msgs)) = []
  /\ run (gemini_chat JSON_stringify net e req_body) =
     ({| calls := [];
         response :=
           json_reply 400 [] (VObj [("error", VStr "No valid messages to send to Gemini.")]) |},
      Ok tt).
Proof.
  intros Hkey Hmsgs Hne Hsys.
  assert (Hc : contents (formatMessagesForGemini (VArr msgs)) = []).
  { rewrite format_array. simpl. apply only_system_no_contents, Hsys. }
  split; [exact Hc|].
  unfold run, gemini_chat. rewrite Hkey, Hmsgs. simpl negb.
  destruct msgs as [|m msgs]; [contradiction|].
  cbn [truthy isArray messages_length length Nat.eqb negb orb].
  rewrite Hc. reflexivity.
Qed.

Lemma only_system_turns_rejected_witness :
  contents (formatMessagesForGemini (VArr two_system_turns)) = []
  /\ run (gemini_chat (fun _ => "") (fun _ => Throw (Error "unreachable"))
            (sample_env (Some "k") None None)
            (VObj [("messages", VArr two_system_turns)])) =
     ({| calls := [];
         response :=
           json_reply 400 [] (VObj [("error", VStr "No valid messages to send to Gemini.")]) |},
      Ok tt).
Proof.
  apply (only_system_turns_rejected (fun _ => "") (fun _ => Throw (Error "unreachable"))
           (sample_env (Some "k") None None)
           (VObj [("messages", VArr two_system_turns)]) two_system_turns).
  - reflexivity.
  - reflexivity.
  - discriminate.
  - vm_compute. reflexivity.
Defined.

(** ** The image handler, stage by stage *)

Section Stages.

Variable JSON_parse : value -> option value.
Variable net : network.
Variable e : env.

Lemma evaluate_run prompt key w :
  evaluateAndOptimizeImagePrompt JSON_parse net prompt key w =
  (called w (moderation_request prompt key),
   verdict_of JSON_parse (net (moderation_request prompt key))).
Proof.
  unfold evaluateAndOptimizeImagePrompt, axios_data, axios, bind, verdict_of, called.
  destruct (net (moderation_request prompt key)) as [[d|cs f]|err]; simpl; try reflexivity.
  destruct (truthy (moderation_content d)); simpl; [|reflexivity].
  destruct (JSON_parse (moderation_content d)) as [parsed|]; [|reflexivity].
  destruct (negb (truthy parsed) || negb (typeof parsed =? "object")%string
            || negb (truthy (prop parsed "status"))); reflexivity.
Qed.

(** Without the OpenAI key the moderation block does nothing. *)
Lemma moderate_skipped prompt w :
  truthy (getenv e "OPENAI_API_KEY") = false ->
  moderate JSON_parse net e prompt w = (w, Ok (Proceed (VStr prompt))).
Proof. intros H. unfold moderate. rewrite H. reflexivity. Qed.

(** With the key, the block makes the moderation call and then follows the
    verdict. *)
Lemma moderate_run prompt w :
  truthy (getenv e "OPENAI_API_KEY") = true ->
  moderate JSON_parse net e prompt w =
  let key := getenv e "OPENAI_API_KEY" in
  let w1 := called w (moderation_request prompt key) in
  match verdict_of JSON_parse (net (moderation_request prompt key)) with
  | Throw _ => (w1, Ok (Proceed (VStr prompt)))
  | Ok verdict =>
      if is_str (prop verdict "status") "safe" then
        (w1, Ok (Proceed (or_else (prop verdict "optimized_prompt") (VStr prompt))))
      else
        (replied w1 400
           (VObj [("error", VStr "unsafe_prompt");
                  ("message",
                   or_else (prop verdict "response") (VStr "whoa, let's keep it PG."))]),
         Ok Rejected)
  end.
Proof.
  intros H. unfold moderate. rewrite H. unfold try_catch, bind at 1.
  rewrite evaluate_run. cbv zeta.
  destruct (verdict_of JSON_parse (net (moderation_request prompt (getenv e "OPENAI_API_KEY"))))
    as [verdict|err]; [|reflexivity].
  destruct (is_str (prop verdict "status") "safe"); reflexivity.
Qed.

End Stages.

(** *** Computations that only add calls and only read the response *)

Create HintDb handler discriminated.

Lemma graft_base {A} w (out : world * result A) :
  calls (fst out) = [] -> graft w out = ({| calls := calls w; response := response (fst out) |}, snd out).
Proof. intros H. unfold graft. rewrite H, app_nil_r. reflexivity. Qed.

Lemma bind_ret {A B} (a : A) (k : A -> M B) : bind (ret a) k = k a.
Proof. reflexivity. Qed.

Lemma framed_ret {A} (a : A) : framed (ret a).
Proof. intros [c r]. unfold graft, ret; simpl. rewrite app_nil_r. reflexivity. Qed.

Lemma framed_throw {A} err : framed (@throw A err).
Proof. intros [c r]. unfold graft, throw; simpl. rewrite app_nil_r. reflexivity. Qed.

Lemma framed_bind {A B} (m : M A) (k : A -> M B) :
  framed m -> (forall a, framed (k a)) -> framed (bind m k).
Proof.
  intros Hm Hk w. unfold bind.
  rewrite (Hm w). unfold graft at 1.
  destruct (m (base w)) as [w1 [a|err]]; simpl.
  - rewrite (Hk a). rewrite (Hk a w1). unfold graft, base; simpl.
    rewrite app_assoc. reflexivity.
  - reflexivity.
Qed.

Lemma framed_try_catch {A} (m : M A) (h : exn -> M A) :
  framed m -> (forall err, framed (h err)) -> framed (try_catch m h).
Proof.
  intros Hm Hh w. unfold try_catch.
  rewrite (Hm w). unfold graft at 1.
  destruct (m (base w)) as [w1 [a|err]]; simpl.
  - reflexivity.
  - rewrite (Hh err). rewrite (Hh err w1). unfold graft, base; simpl.
    rewrite app_assoc. reflexivity.
Qed.

Lemma framed_update_res f : framed (update_res f).
Proof. intros [c r]. unfold graft, update_res; simpl. rewrite app_nil_r. reflexivity. Qed.

Lemma framed_headersSent : framed get_headersSent.
Proof. intros [c r]. unfold graft, get_headersSent; simpl. rewrite app_nil_r. reflexivity. Qed.

Lemma framed_member v k : framed (member v k).
Proof. unfold member. destruct (nullish v); [apply framed_throw | apply framed_ret]. Qed.

Lemma framed_axios net rq : framed (axios net rq).
Proof. intros [c r]. reflexivity. Qed.

Lemma framed_axios_data net rq : framed (axios_data net rq).
Proof.
  unfold axios_data. apply framed_bind; [apply framed_axios|].
  intros [v|cs f]; apply framed_ret.
Qed.

Lemma quiet_ret {A} (a : A) : quiet (ret a).
Proof. intros w. reflexivity. Qed.

Lemma quiet_throw {A} err : quiet (@throw A err).
Proof. intros w. reflexivity. Qed.

Lemma quiet_bind {A B} (m : M A) (k : A -> M B) :
  quiet m -> (forall a, quiet (k a)) -> quiet (bind m k).
Proof.
  intros Hm Hk w. unfold bind. specialize (Hm w).
  destruct (m w) as [w1 [a|err]]; simpl in *; [rewrite (Hk a w1)|]; exact Hm.
Qed.

Lemma quiet_try_catch {A} (m : M A) (h : exn -> M A) :
  quiet m -> (forall err, quiet (h err)) -> quiet (try_catch m h).
Proof.
  intros Hm Hh w. unfold try_catch. specialize (Hm w).
  destruct (m w) as [w1 [a|err]]; simpl in *; [|rewrite (Hh err w1)]; exact Hm.
Qed.

Lemma quiet_update_res f : quiet (update_res f).
Proof. intros w. reflexivity. Qed.

Lemma quiet_headersSent : quiet get_headersSent.
Proof. intros w. reflexivity. Qed.

Lemma quiet_member v k : quiet (member v k).
Proof. unfold member. destruct (nullish v); [apply quiet_throw | apply quiet_ret]. Qed.

#[local] Hint Resolve framed_ret framed_throw framed_update_res framed_headersSent
  framed_member framed_axios framed_axios_data
  quiet_ret quiet_throw quiet_update_res quiet_headersSent quiet_member : handler.

(** Breaks a handler into its steps. *)
Ltac steps :=
  repeat first
    [ apply framed_bind; [|intros ?]
    | apply framed_try_catch; [|intros ?]
    | apply quiet_bind; [|intros ?]
    | apply quiet_try_catch; [|intros ?]
    | progress unfold res_status, res_json, res_send, res_send_text, res_write,
        res_end, res_end_with, res_setHeader, emit
    | solve [auto with handler]
    | match goal with
      | |- framed (if ?b then _ else _) => destruct b
      | |- quiet (if ?b then _ else _) => destruct b
      end ].

Section Generation.

Variable net : network.

Lemma framed_has_inline_data part : framed (has_inline_data part).
Proof. unfold has_inline_data. steps. Qed.

Lemma quiet_has_inline_data part : quiet (has_inline_data part).
Proof. unfold has_inline_data. steps. Qed.

Lemma framed_find_first ps : framed (find_first has_inline_data ps).
Proof.
  induction ps as [|p ps IH]; simpl; [steps|].
  apply framed_bind; [apply framed_has_inline_data|].
  intros [|]; [steps | exact IH].
Qed.

Lemma quiet_find_first ps : quiet (find_first has_inline_data ps).
Proof.
  induction ps as [|p ps IH]; simpl; [steps|].
  apply quiet_bind; [apply quiet_has_inline_data|].
  intros [|]; [steps | exact IH].
Qed.

Lemma framed_array_find v : framed (array_find v has_inline_data).
Proof. destruct v; simpl; try apply framed_throw. apply framed_find_first. Qed.

Lemma quiet_array_find v : quiet (array_find v has_inline_data).
Proof. destruct v; simpl; try apply quiet_throw. apply quiet_find_first. Qed.

Lemma framed_image_failure err : framed (image_failure err).
Proof. unfold image_failure. steps. Qed.

Lemma quiet_image_failure err : quiet (image_failure err).
Proof. unfold image_failure. steps. Qed.

Lemma generate_unfold key req_body finalPrompt :
  generate net key req_body finalPrompt =
  (referenceImage <- member req_body "referenceImage" ;;
   geminiResponse <- axios_data net (image_request key referenceImage finalPrompt) ;;
   read_image geminiResponse).
Proof. reflexivity. Qed.

Lemma framed_read_image d : framed (read_image d).
Proof.
  unfold read_image. apply framed_bind; [apply framed_array_find|]. intros a. steps.
Qed.

Lemma quiet_read_image d : quiet (read_image d).
Proof.
  unfold read_image. apply quiet_bind; [apply quiet_array_find|]. intros a. steps.
Qed.

Lemma has_inline_data_run part w :
  nullish part = false ->
  has_inline_data part w = (w, Ok (inline part)).
Proof.
  intros H. unfold has_inline_data, member, bind, inline. rewrite H. simpl.
  destruct (truthy (prop part "inlineData")); reflexivity.
Qed.


Lemma inline_object p : inline p = true -> truthy p = true /\ nullish p = false.
Proof.
  unfold inline. destruct p; simpl; try discriminate. split; reflexivity.
Qed.

(** The generation stage acts the same whatever calls came before it. *)
Lemma framed_generate key req_body finalPrompt :
  framed (try_catch (generate net key req_body finalPrompt) image_failure).
Proof.
  rewrite generate_unfold.
  apply framed_try_catch; [|apply framed_image_failure].
  apply framed_bind; [apply framed_member|]. intros r.
  apply framed_bind; [apply framed_axios_data|]. intros d.
  apply framed_read_image.
Qed.

(** The generation stage makes exactly one call, to the image model. *)
Lemma generate_calls key req_body finalPrompt w :
  nullish req_body = false ->
  calls (fst (try_catch (generate net key req_body finalPrompt) image_failure w)) =
  (calls w ++ [image_request key (prop req_body "referenceImage") finalPrompt])%list.
Proof.
  intros Hb. rewrite generate_unfold.
  unfold try_catch, member, bind at 1. rewrite Hb. simpl.
  unfold axios_data, axios, bind at 1 2.
  set (rq := image_request key (prop req_body "referenceImage") finalPrompt).
  set (w1 := {| calls := calls w ++ [rq]; response := response w |}).
  assert (Hread : forall d,
    calls (fst (let '(w2, r) := read_image d w1 in
                match r with
                | Ok a => (w2, Ok a)
                | Throw err => image_failure err w2
                end)) = calls w1).
  { intros d. pose proof (quiet_read_image d w1) as Hq.
    destruct (read_image d w1) as [w2 [u|err]]; [exact Hq|].
    rewrite (quiet_image_failure err w2). exact Hq. }
  destruct (net rq) as [[d|cs f]|err]; [apply Hread | apply Hread | reflexivity].
Qed.

(** The generation stage always completes: its failures are answered. *)
Lemma generate_completes key req_body finalPrompt w :
  snd (try_catch (generate net key req_body finalPrompt) image_failure w) = Ok tt.
Proof.
  unfold try_catch.
  destruct (generate net key req_body finalPrompt w) as [w1 [[]|err]]; reflexivity.
Qed.

End Generation.

Section Image.

Variable JSON_parse : value -> option value.
Variable net : network.
Variable e : env.
Variable req_body : value.

Let gemini_key := getenv e "GEMINI_API_KEY".
Let openai_key := getenv e "OPENAI_API_KEY".
Let prompt := image_prompt (prop req_body "prompt").

Hypothesis gemini_key_set : truthy gemini_key = true.
Hypothesis body_present : nullish req_body = false.
Hypothesis prompt_given : prompt <> "".

(** Past the two checks, the handler is the moderation block followed by
    the generation stage. *)
Lemma gemini_image_run :
  run (gemini_image JSON_parse net e req_body) =
  match moderate JSON_parse net e prompt start with
  | (w1, Ok Rejected) => (w1, Ok tt)
  | (w1, Ok (Proceed finalPrompt)) =>
      try_catch (generate net gemini_key req_body finalPrompt) image_failure w1
  | (w1, Throw err) => image_failure err w1
  end.
Proof.
  unfold run, gemini_image. fold gemini_key. rewrite gemini_key_set. cbn [negb].
  unfold member. rewrite body_present, bind_ret. fold prompt. unfold truthy.
  assert (Hp : (prompt =? "")%string = false) by (apply String.eqb_neq, prompt_given).
  rewrite Hp. cbn [negb]. unfold try_catch, bind.
  destruct (moderate JSON_parse net e prompt start) as [w1 [[|fp]|err]]; reflexivity.
Qed.

(** A verdict other than safe ends the request. *)
Lemma image_rejected verdict :
  truthy openai_key = true ->
  snd (evaluateAndOptimizeImagePrompt JSON_parse net prompt openai_key start) = Ok verdict ->
  is_str (prop verdict "status") "safe" = false ->
  run (gemini_image JSON_parse net e req_body) =
  ({| calls := [moderation_request prompt openai_key];
      response :=
        json_reply 400 []
          (VObj [("error", VStr "unsafe_prompt");
                 ("message",
                  or_else (prop verdict "response") (VStr "whoa, let's keep it PG."))]) |},
   Ok tt).
Proof.
  intros Hkey Hv Hs. rewrite gemini_image_run, (moderate_run _ _ _ _ _ Hkey). cbv zeta.
  rewrite evaluate_run in Hv. simpl in Hv. fold openai_key. rewrite Hv, Hs. reflexivity.
Qed.

(** A safe verdict lets the generation stage run, on the prompt it gives. *)
Lemma image_accepted verdict :
  truthy openai_key = true ->
  snd (evaluateAndOptimizeImagePrompt JSON_parse net prompt openai_key start) = Ok verdict ->
  is_str (prop verdict "status") "safe" = true ->
  run (gemini_image JSON_parse net e req_body) =
  try_catch
    (generate net gemini_key req_body
       (or_else (prop verdict "optimized_prompt") (VStr prompt)))
    image_failure
    (called start (moderation_request prompt openai_key)).
Proof.
  intros Hkey Hv Hs. rewrite gemini_image_run, (moderate_run _ _ _ _ _ Hkey). cbv zeta.
  rewrite evaluate_run in Hv. simpl in Hv. fold openai_key. rewrite Hv, Hs. reflexivity.
Qed.

(** Without a verdict the generation stage runs on the prompt of the request. *)
Lemma image_unmoderated :
  truthy openai_key = false
  \/ (exists err,
        snd (evaluateAndOptimizeImagePrompt JSON_parse net prompt openai_key start) = Throw err) ->
  run (gemini_image JSON_parse net e req_body) =
  try_catch (generate net gemini_key req_body (VStr prompt)) image_failure
    (if truthy openai_key then called start (moderation_request prompt openai_key) else start).
Proof.
  intros H. rewrite gemini_image_run.
  destruct (truthy openai_key) eqn:Hkey.
  - destruct H as [H|[err H]]; [discriminate|].
    rewrite (moderate_run _ _ _ _ _ Hkey). cbv zeta.
    rewrite evaluate_run in H. simpl in H. fold openai_key. rewrite H. reflexivity.
  - rewrite (moderate_skipped _ _ _ _ _ Hkey). reflexivity.
Qed.

(** When the moderation block lets the request through, it has written
    nothing to the client. *)
Lemma moderate_proceed_response w w1 finalPrompt :
  moderate JSON_parse net e prompt w = (w1, Ok (Proceed finalPrompt)) ->
  response w1 = response w.
Proof.
  destruct (truthy openai_key) eqn:Hkey.
  - rewrite (moderate_run _ _ _ _ _ Hkey). cbv zeta.
    destruct (verdict_of _ _) as [verdict|err].
    + destruct (is_str (prop verdict "status") "safe"); intros H; inversion H; reflexivity.
    + intros H; inversion H; reflexivity.
  - rewrite (moderate_skipped _ _ _ _ _ Hkey). intros H; inversion H; reflexivity.
Qed.

End Image.

Section ReadImage.


End ReadImage.

(** ** C3: an unsafe verdict *)

(** C3, as stated, fails in its last part: the handler forwards the text the
    moderation model wrote, whatever it is, and this one repeats the prompt. *)
Lemma refusal_may_repeat_prompt :
  let out :=
    run (gemini_image (parse_table [("verdict", leaky_refusal)])
           (two_providers (Ok (Data (chat_completion (VStr "verdict"))))
                          (Ok (Data (gemini_answer [png_part]))))
           both_keys (image_body "draw gore")) in
  response (fst out) =
    json_reply 400 []
      (VObj [("error", VStr "unsafe_prompt");
             ("message", VStr "nope, not going to draw gore today")])
  /\ includes "nope, not going to draw gore today" "draw gore" = true.
Proof. vm_compute. split; reflexivity. Qed.

(** C3, amended: when the verdict of the moderation call has status unsafe,
    the image handler answers 400 with error unsafe_prompt and, as message,
    the response field of the verdict when it is truthy and the fixed text
    otherwise; it calls the image model not at all.  The message is built
    from the verdict alone. *)
Theorem unsafe_verdict_rejected
    (JSON_parse : value -> option value) (net : network) (e : env)
    (req_body verdict : value) :
  let prompt := image_prompt (prop req_body "prompt") in
  let openai_key := getenv e "OPENAI_API_KEY" in
  truthy (getenv e "GEMINI_API_KEY") = true ->
  truthy openai_key = true ->
  nullish req_body = false ->
  prompt <> "" ->
  snd (evaluateAndOptimizeImagePrompt JSON_parse net prompt openai_key start) = Ok verdict ->
  prop verdict "status" = VStr "unsafe" ->
  run (gemini_image JSON_parse net e req_body) =
  ({| calls := [moderation_request prompt openai_key];
      response :=
        json_reply 400 []
          (VObj [("error", VStr "unsafe_prompt");
                 ("message",
                  if truthy (prop verdict "response") then prop verdict "response"
                  else VStr "whoa, let's keep it PG.")]) |},
   Ok tt).
Proof.
  intros prompt openai_key Hg Ho Hb Hp Hv Hs.
  apply (image_rejected JSON_parse net e req_body Hg Hb Hp verdict Ho Hv).
  rewrite Hs. reflexivity.
Qed.

Lemma unsafe_verdict_rejected_witness :
  run (gemini_image (parse_table [("verdict", leaky_refusal)])
         (two_providers (Ok (Data (chat_completion (VStr "verdict"))))
                        (Ok (Data (gemini_answer [png_part]))))
         both_keys (image_body "draw gore")) =
  ({| calls := [moderation_request "draw gore" (VStr "o-key")];
      response :=
        json_reply 400 []
          (VObj [("error", VStr "unsafe_prompt");
                 ("message", VStr "nope, not going to draw gore today")]) |},
   Ok tt).
Proof.
  apply (unsafe_verdict_rejected (parse_table [("verdict", leaky_refusal)])
           (two_providers (Ok (Data (chat_completion (VStr "verdict"))))
                          (Ok (Data (gemini_answer [png_part]))))
           both_keys (image_body "draw gore") leaky_refusal).
  - reflexivity.
  - reflexivity.
  - reflexivity.
  - vm_compute. discriminate.
  - vm_compute. reflexivity.
  - reflexivity.
Defined.

(** ** C4: a safe verdict *)

(** The prompt is the last part of the image request. *)
Lemma image_parts_last referenceImage finalPrompt :
  last (image_parts referenceImage finalPrompt) VUndefined = VObj [("text", finalPrompt)].
Proof.
  unfold image_parts.
  destruct (truthy referenceImage && truthy (prop referenceImage "data")); reflexivity.
Qed.

(** C4: when the verdict of the moderation call has status safe, the image
    model is called once, after the moderation call, and the text part of
    that request is the optimized prompt of the verdict when it is truthy,
    and otherwise (empty or absent) the prompt of the request, which is the
    trimmed [prompt] field of the body. *)
Theorem safe_verdict_prompt
    (JSON_parse : value -> option value) (net : network) (e : env)
    (req_body verdict : value) :
  let prompt := image_prompt (prop req_body "prompt") in
  let openai_key := getenv e "OPENAI_API_KEY" in
  let sent :=
    if truthy (prop verdict "optimized_prompt") then prop verdict "optimized_prompt"
    else VStr prompt in
  let image_call :=
    image_request (getenv e "GEMINI_API_KEY") (prop req_body "referenceImage") sent in
  truthy (getenv e "GEMINI_API_KEY") = true ->
  truthy openai_key = true ->
  nullish req_body = false ->
  prompt <> "" ->
  snd (evaluateAndOptimizeImagePrompt JSON_parse net prompt openai_key start) = Ok verdict ->
  prop verdict "status" = VStr "safe" ->
  calls (fst (run (gemini_image JSON_parse net e req_body))) =
    [moderation_request prompt openai_key; image_call]
  /\ prop (elem0 (prop (data image_call) "contents")) "parts" =
     VArr (image_parts (prop req_body "referenceImage") sent)
  /\ last (image_parts (prop req_body "referenceImage") sent) VUndefined =
     VObj [("text", sent)].
Proof.
  intros prompt openai_key sent image_call Hg Ho Hb Hp Hv Hs.
  split; [|split; [reflexivity | apply image_parts_last]].
  assert (Hsafe : is_str (prop verdict "status") "safe" = true) by (rewrite Hs; reflexivity).
  rewrite (image_accepted JSON_parse net e req_body Hg Hb Hp verdict Ho Hv Hsafe).
  rewrite generate_calls by exact Hb. reflexivity.
Qed.

Lemma safe_verdict_prompt_witness :
  calls (fst (run (gemini_image (parse_table [("verdict", safe_verdict)])
                     (two_providers (Ok (Data (chat_completion (VStr "verdict"))))
                                    (Ok (Data (gemini_answer [png_part]))))
                     both_keys (image_body "a cat astronaut")))) =
  [moderation_request "a cat astronaut" (VStr "o-key");
   image_request (VStr "g-key") VUndefined
     (VStr "a cat in a spacesuit, detailed, photorealistic")].
Proof.
  apply (safe_verdict_prompt (parse_table [("verdict", safe_verdict)])
           (two_providers (Ok (Data (chat_completion (VStr "verdict"))))
                          (Ok (Data (gemini_answer [png_part]))))
           both_keys (image_body "a cat astronaut") safe_verdict).
  - reflexivity.
  - reflexivity.
  - reflexivity.
  - vm_compute. discriminate.
  - vm_compute. reflexivity.
  - reflexivity.
Defined.

(** ** Moderation unavailable *)

Lemma unavailable_no_verdict JSON_parse net e prompt :
  moderation_unavailable JSON_parse net e prompt ->
  truthy (getenv e "OPENAI_API_KEY") = false
  \/ exists err,
       snd (evaluateAndOptimizeImagePrompt JSON_parse net prompt
              (getenv e "OPENAI_API_KEY") start) = Throw err.
Proof.
  intros [Hk | err Hk Hn | d Hk Hn Hc | d Hk Hn Hj | d parsed Hk Hn Hj Hs];
    [left; exact Hk | right ..]; rewrite evaluate_run; unfold verdict_of; rewrite Hn; simpl.
  - eexists; reflexivity.
  - rewrite Hc. eexists; reflexivity.
  - destruct (truthy (moderation_content d)); simpl; [rewrite Hj|]; eexists; reflexivity.
  - destruct (truthy (moderation_content d)); simpl; [rewrite Hj|]; [|eexists; reflexivity].
    replace (negb (truthy parsed) || negb (typeof parsed =? "object")%string
             || negb (truthy (prop parsed "status"))) with true; [eexists; reflexivity|].
    destruct (truthy parsed), (typeof parsed =? "object")%string,
      (truthy (prop parsed "status")); try reflexivity; discriminate Hs.
Qed.

(** ** The answer of the image model *)

Example image_returned :
  response (fst (run (gemini_image (parse_table [])
                        (two_providers (Throw (Error "down"))
                           (Ok (Data (gemini_answer [VObj [("text", VStr "here")]; png_part]))))
                        gemini_only (image_body "a cat")))) =
  json_reply 200 []
    (VObj [("image", VStr "iVBORw0KGgo="); ("mimeType", VStr "image/png")]).
Proof. vm_compute. reflexivity. Qed.

(** ** The texts of a chat answer *)

Lemma part_text_run part w :
  nullish part = false -> part_text part w = (w, Ok (text_of_part part)).
Proof.
  intros H. unfold part_text, member, text_of_part. rewrite H, bind_ret.
  destruct (prop part "text"); reflexivity.
Qed.

Lemma map_each_run ps : forall w,
  well_formed ps = true ->
  map_each part_text ps w = (w, Ok (map text_of_part ps)).
Proof.
  induction ps as [|p ps IH]; intros w H; simpl in *; [reflexivity|].
  apply andb_prop in H as [Hp Hps]. apply negb_true_iff in Hp.
  unfold bind. rewrite (part_text_run p w Hp), (IH w Hps). reflexivity.
Qed.

(** ** C9: a missing credential *)

(** An empty prompt is refused before any upstream call. *)
Example empty_prompt_refused :
  run (gemini_image (parse_table [])
         (two_providers (Throw (Error "unreachable")) (Throw (Error "unreachable")))
         both_keys (image_body "   ")) =
  ({| calls := [];
      response :=
        json_reply 400 [] (VObj [("error", VStr "No prompt provided for image generation.")]) |},
   Ok tt).
Proof. vm_compute. reflexivity. Qed.

(** The chat route reads [req.body.model] before it checks the key: without
    a body the handler throws and answers nothing. *)
Example openai_chat_without_body :
  run (openai_chat (fun _ => Throw (Error "unreachable")) gemini_only VUndefined) =
  (start, Throw (TypeError "Cannot read properties of undefined")).
Proof. vm_compute. reflexivity. Qed.


Lemma image_request_not_openai key referenceImage finalPrompt :
  is_openai (image_request key referenceImage finalPrompt) = false.
Proof. reflexivity. Qed.




(** * Further properties of the code *)

(** ** [trim] *)

Lemma strip_app p : forall s s', strip p s = Some s' -> s = p ++ s'.
Proof.
  induction p as [|a p IH]; intros s s' H; simpl in *.
  - injection H as <-. reflexivity.
  - destruct s as [|b s]; [discriminate|].
    destruct (Ascii.eqb a b) eqn:E; [|discriminate].
    apply Ascii.eqb_eq in E as <-. f_equal. apply IH, H.
Qed.

Lemma strip_extend p : forall s s' t, strip p s = Some s' -> strip p (s ++ t) = Some (s' ++ t).
Proof.
  induction p as [|a p IH]; intros s s' t H; simpl in *.
  - injection H as <-. reflexivity.
  - destruct s as [|b s]; [discriminate|]. simpl.
    destruct (Ascii.eqb a b); [apply IH, H | discriminate].
Qed.

Lemma strip_any_extend ws : forall s s' t,
  strip_any ws s = Some s' -> exists x, strip_any ws (s ++ t) = Some x.
Proof.
  induction ws as [|p ws IH]; intros s s' t H; simpl in *; [discriminate|].
  destruct (strip p s) as [r|] eqn:E.
  - rewrite (strip_extend p s r t E). eexists; reflexivity.
  - destruct (strip p (s ++ t)); [eexists; reflexivity|]. apply (IH s s' t H).
Qed.

Lemma append_length a b : String.length (a ++ b) = (String.length a + String.length b)%nat.
Proof. induction a as [|c a IH]; simpl; [reflexivity | rewrite IH; reflexivity]. Qed.

Lemma append_empty_r a : a ++ "" = a.
Proof. induction a as [|c a IH]; simpl; [reflexivity | rewrite IH; reflexivity]. Qed.

Lemma append_assoc_string a b c : (a ++ b) ++ c = a ++ (b ++ c).
Proof. induction a as [|x a IH]; simpl; [reflexivity | rewrite IH; reflexivity]. Qed.

Lemma strip_any_shorter ws : forall s s',
  no_empty ws = true -> strip_any ws s = Some s' ->
  (String.length s' < String.length s)%nat.
Proof.
  induction ws as [|p ws IH]; intros s s' Hne H; simpl in *; [discriminate|].
  apply andb_prop in Hne as [Hp Hws].
  destruct (strip p s) as [r|] eqn:E.
  - injection H as <-. apply strip_app in E. subst s. rewrite append_length.
    destruct p; [discriminate Hp | simpl; lia].
  - apply IH; assumption.
Qed.

Lemma strip_any_empty ws : no_empty ws = true -> strip_any ws "" = None.
Proof.
  induction ws as [|p ws IH]; intros Hne; simpl in *; [reflexivity|].
  apply andb_prop in Hne as [Hp Hws].
  destruct p; [discriminate Hp|]. simpl. apply IH, Hws.
Qed.

Lemma trim_left_clean ws : forall fuel s,
  no_empty ws = true -> (String.length s <= fuel)%nat ->
  strip_any ws (trim_left fuel ws s) = None.
Proof.
  induction fuel as [|fuel IH]; intros s Hne Hlen; simpl.
  - destruct s; [apply strip_any_empty, Hne | simpl in Hlen; lia].
  - destruct (strip_any ws s) as [s'|] eqn:E; [|exact E].
    apply IH; [exact Hne|]. pose proof (strip_any_shorter ws s s' Hne E). lia.
Qed.

Lemma trim_left_fixed ws fuel s : strip_any ws s = None -> trim_left fuel ws s = s.
Proof. intros H. destruct fuel; simpl; [reflexivity | rewrite H; reflexivity]. Qed.

Lemma strip_any_app ws : forall s s', strip_any ws s = Some s' -> exists p, s = p ++ s'.
Proof.
  induction ws as [|p ws IH]; intros s s' H; simpl in *; [discriminate|].
  destruct (strip p s) as [r|] eqn:E.
  - injection H as <-. exists p. apply strip_app, E.
  - apply IH, H.
Qed.

Lemma trim_left_suffix ws : forall fuel s, exists pre, s = pre ++ trim_left fuel ws s.
Proof.
  induction fuel as [|fuel IH]; intros s; simpl; [exists ""; reflexivity|].
  destruct (strip_any ws s) as [s'|] eqn:E; [|exists ""; reflexivity].
  destruct (strip_any_app ws s s' E) as [p ->].
  destruct (IH s') as [pre Hpre].
  exists (p ++ pre). rewrite append_assoc_string, <- Hpre. reflexivity.
Qed.

Lemma list_of_append a b :
  list_ascii_of_string (a ++ b) = (list_ascii_of_string a ++ list_ascii_of_string b)%list.
Proof. induction a as [|c a IH]; simpl; [reflexivity | rewrite IH; reflexivity]. Qed.

Lemma string_of_app l1 l2 :
  string_of_list_ascii (l1 ++ l2) = string_of_list_ascii l1 ++ string_of_list_ascii l2.
Proof. induction l1 as [|c l1 IH]; simpl; [reflexivity | rewrite IH; reflexivity]. Qed.

Lemma rev_string_involutive s : rev_string (rev_string s) = s.
Proof.
  unfold rev_string.
  rewrite list_ascii_of_string_of_list_ascii, rev_involutive.
  apply string_of_list_ascii_of_string.
Qed.

Lemma rev_string_append a b : rev_string (a ++ b) = rev_string b ++ rev_string a.
Proof. unfold rev_string. rewrite list_of_append, rev_app_distr. apply string_of_app. Qed.

Lemma rev_string_length s : String.length (rev_string s) = String.length s.
Proof.
  unfold rev_string.
  assert (H : forall l, String.length (string_of_list_ascii l) = length l).
  { induction l as [|c l IH]; simpl; [reflexivity | rewrite IH; reflexivity]. }
  rewrite H, length_rev.
  induction s as [|c s IH]; simpl; [reflexivity | rewrite IH; reflexivity].
Qed.

Lemma white_space_no_empty : no_empty white_space = true.
Proof. vm_compute. reflexivity. Qed.

Lemma reversed_white_space_no_empty : no_empty (map rev_string white_space) = true.
Proof. vm_compute. reflexivity. Qed.

Lemma trimStart_clean s : starts_with_space (trimStart s) = false.
Proof.
  unfold starts_with_space, trimStart.
  rewrite (trim_left_clean white_space _ s white_space_no_empty (le_n _)). reflexivity.
Qed.

Lemma trimEnd_clean s : ends_with_space (trimEnd s) = false.
Proof.
  unfold ends_with_space, trimEnd. rewrite rev_string_involutive.
  rewrite trim_left_clean; [reflexivity | apply reversed_white_space_no_empty|].
  rewrite rev_string_length. apply le_n.
Qed.

Lemma trimEnd_prefix s : exists suffix, s = trimEnd s ++ suffix.
Proof.
  unfold trimEnd.
  destruct (trim_left_suffix (map rev_string white_space) (String.length s) (rev_string s))
    as [pre H].
  exists (rev_string pre).
  rewrite <- rev_string_append, <- H. symmetry. apply rev_string_involutive.
Qed.

Lemma trimEnd_keeps_start s : starts_with_space s = false -> starts_with_space (trimEnd s) = false.
Proof.
  unfold starts_with_space. intros H.
  destruct (strip_any white_space (trimEnd s)) as [r|] eqn:E; [|reflexivity].
  destruct (trimEnd_prefix s) as [suffix Hs].
  destruct (strip_any_extend white_space _ r suffix E) as [x Hx].
  rewrite <- Hs in Hx. rewrite Hx in H. discriminate H.
Qed.

Lemma trimStart_fixed s : starts_with_space s = false -> trimStart s = s.
Proof.
  unfold starts_with_space, trimStart. intros H. apply trim_left_fixed.
  destruct (strip_any white_space s); [discriminate H | reflexivity].
Qed.

Lemma trimEnd_fixed s : ends_with_space s = false -> trimEnd s = s.
Proof.
  unfold ends_with_space, trimEnd. intros H. rewrite trim_left_fixed.
  - apply rev_string_involutive.
  - destruct (strip_any (map rev_string white_space) (rev_string s));
      [discriminate H | reflexivity].
Qed.

Lemma trimEnd_shorter s : (String.length (trimEnd s) <= String.length s)%nat.
Proof.
  destruct (trimEnd_prefix s) as [suffix H]. rewrite H at 2. rewrite append_length. lia.
Qed.

Lemma trimStart_shorter s : (String.length (trimStart s) <= String.length s)%nat.
Proof.
  unfold trimStart.
  destruct (trim_left_suffix white_space (String.length s) s) as [pre H].
  rewrite H at 3. rewrite append_length. lia.
Qed.

Lemma trim_start_clean s : starts_with_space (trim s) = false.
Proof. unfold trim. apply trimEnd_keeps_start, trimStart_clean. Qed.

Lemma trim_end_clean s : ends_with_space (trim s) = false.
Proof. unfold trim. apply trimEnd_clean. Qed.

Lemma trim_twice s : trim (trim s) = trim s.
Proof.
  unfold trim at 1. rewrite (trimStart_fixed _ (trim_start_clean s)).
  apply trimEnd_fixed, trim_end_clean.
Qed.

Lemma trim_shorter s : (String.length (trim s) <= String.length s)%nat.
Proof.
  unfold trim. pose proof (trimEnd_shorter (trimStart s)).
  pose proof (trimStart_shorter s). lia.
Qed.

(** X1: the prompt the image route works with, whatever the body holds
    under [prompt], neither starts nor ends with white space, is left as it
    is when normalised again, and is never longer than the string it comes
    from; it is empty when the field is not a string. *)
Theorem image_prompt_normalised (body_prompt : value) :
  let p := image_prompt body_prompt in
  starts_with_space p = false
  /\ ends_with_space p = false
  /\ image_prompt (VStr p) = p
  /\ (String.length p <= String.length (string_of body_prompt))%nat
  /\ (if (typeof body_prompt =? "string")%string then True else p = "").
Proof.
  cbv zeta. unfold image_prompt.
  destruct (typeof body_prompt =? "string")%string; cbn [typeof String.eqb string_of].
  - change (typeof (VStr (trim (string_of body_prompt))) =? "string")%string with true.
    cbv iota. cbn [string_of].
    repeat split;
      [apply trim_start_clean | apply trim_end_clean | apply trim_twice | apply trim_shorter].
  - repeat split; try reflexivity. apply Nat.le_0_l.
Qed.

(** ** The translator *)

Lemma format_turns_of messages :
  formatMessagesForGemini messages = formatMessagesForGemini (VArr (turns_of messages)).
Proof. destruct messages; reflexivity. Qed.

Lemma instruction_texts_extend ps :
  instruction_texts {| contents := []; systemInstruction := extend None ps |} = ps.
Proof. destruct ps; reflexivity. Qed.

Lemma instruction_texts_format msgs :
  instruction_texts (formatMessagesForGemini (VArr msgs)) = flat_map system_part msgs.
Proof.
  rewrite format_array. unfold instruction_texts. cbn [systemInstruction].
  destruct (flat_map system_part msgs); reflexivity.
Qed.

Lemma contents_format msgs :
  contents (formatMessagesForGemini (VArr msgs)) = flat_map entry msgs.
Proof. rewrite format_array. reflexivity. Qed.

(** X2: translating a conversation in two pieces and putting the results
    together is translating it whole: the contents of the pieces follow each
    other, and so do the parts of their instruction blocks. *)
Theorem translator_append (a b : list value) :
  contents (formatMessagesForGemini (VArr (a ++ b))) =
    (contents (formatMessagesForGemini (VArr a))
     ++ contents (formatMessagesForGemini (VArr b)))%list
  /\ instruction_texts (formatMessagesForGemini (VArr (a ++ b))) =
     (instruction_texts (formatMessagesForGemini (VArr a))
      ++ instruction_texts (formatMessagesForGemini (VArr b)))%list.
Proof.
  rewrite !contents_format, !instruction_texts_format, !flat_map_app. split; reflexivity.
Qed.

Lemma turn_text_forwarded m t : turn_text m = Some t -> forwarded_text t.
Proof.
  unfold turn_text.
  destruct (negb (truthy m) || negb (typeof m =? "object")%string
            || negb (typeof (prop m "content") =? "string")%string); [discriminate|].
  cbv zeta.
  destruct (trim (string_of (prop m "content")) =? "")%string eqn:E; [discriminate|].
  intros H. injection H as <-. split.
  - apply String.eqb_neq, E.
  - apply trim_twice.
Qed.

Lemma entry_forwarded m : Forall forwarded_entry (entry m).
Proof.
  unfold entry. destruct (turn_text m) as [t|] eqn:E; [|constructor].
  destruct (is_system m); constructor; [|constructor].
  split.
  - cbn [role]. unfold target_role.
    destruct (is_str (prop m "role") "assistant" || is_str (prop m "role") "model");
      [right | left]; reflexivity.
  - exists t. split; [reflexivity | apply (turn_text_forwarded m t E)].
Qed.

Lemma system_part_forwarded m : Forall (fun p => forwarded_text (text p)) (system_part m).
Proof.
  unfold system_part. destruct (turn_text m) as [t|] eqn:E; [|constructor].
  destruct (is_system m); constructor; [|constructor].
  apply (turn_text_forwarded m t E).
Qed.

Lemma Forall_flat_map {A B} (P : B -> Prop) (f : A -> list B) xs :
  (forall x, Forall P (f x)) -> Forall P (flat_map f xs).
Proof.
  intros H. induction xs as [|x xs IH]; simpl; [constructor|].
  apply Forall_app. split; [apply H | exact IH].
Qed.

(** X3: whatever value is given as messages, every entry of the contents
    has role user or model (never system) and exactly one text part, every
    text of the contents and of the instruction block is non-empty and
    trimmed, and an instruction block, when there is one, has a part. *)
Theorem translator_output_shape (messages : value) :
  let f := formatMessagesForGemini messages in
  Forall forwarded_entry (contents f)
  /\ Forall (fun p => forwarded_text (text p)) (instruction_texts f)
  /\ match systemInstruction f with
     | Some i => (0 < length (instruction_parts i))%nat
     | None => True
     end.
Proof.
  cbv zeta. rewrite format_turns_of.
  rewrite contents_format, instruction_texts_format.
  split; [apply Forall_flat_map, entry_forwarded|].
  split; [apply Forall_flat_map, system_part_forwarded|].
  rewrite format_array. cbn [systemInstruction].
  destruct (flat_map system_part (turns_of messages)); simpl; [exact I | lia].
Qed.

Lemma turn_counts m :
  (length (entry m) + length (system_part m))%nat = if usable m then 1%nat else 0%nat.
Proof.
  unfold entry, system_part, usable.
  destruct (turn_text m); [destruct (is_system m)|]; reflexivity.
Qed.

(** X4: every turn with a usable content gives exactly one entry, in the
    contents or in the instruction block, and the other turns give none: the
    two together have as many entries as there are usable turns, hence at
    most as many as there are turns; a value that is not an array gives
    none. *)
Theorem translator_counts (messages : value) :
  let f := formatMessagesForGemini messages in
  (length (contents f) + length (instruction_texts f))%nat =
    length (filter usable (turns_of messages))
  /\ (length (contents f) + length (instruction_texts f) <= length (turns_of messages))%nat.
Proof.
  cbv zeta. rewrite format_turns_of, contents_format, instruction_texts_format.
  assert (H : (length (flat_map entry (turns_of messages))
               + length (flat_map system_part (turns_of messages)))%nat
              = length (filter usable (turns_of messages))).
  { induction (turns_of messages) as [|m msgs IH]; simpl; [reflexivity|].
    rewrite !length_app. pose proof (turn_counts m) as Hm.
    destruct (usable m); simpl; lia. }
  split; [exact H|]. rewrite H. apply filter_length_le.
Qed.

(** ** The moderation pre-filter *)

(** X5: the pre-filter makes exactly one call, the moderation request for
    the prompt, whatever comes back; and what it returns is always an object
    with a truthy status, the parse of the content of the first choice. *)
Theorem verdict_shape
    (JSON_parse : value -> option value) (net : network)
    (prompt : string) (key verdict : value) (w w' : world) :
  evaluateAndOptimizeImagePrompt JSON_parse net prompt key w = (w', Ok verdict) ->
  w' = called w (moderation_request prompt key)
  /\ typeof verdict = "object"
  /\ truthy verdict = true
  /\ truthy (prop verdict "status") = true
  /\ exists d,
       net (moderation_request prompt key) = Ok (Data d)
       /\ truthy (moderation_content d) = true
       /\ JSON_parse (moderation_content d) = Some verdict.
Proof.
  rewrite evaluate_run. intros H. injection H as <- H. split; [reflexivity|].
  unfold verdict_of in H.
  destruct (net (moderation_request prompt key)) as [[d|cs f]|err]; try discriminate H.
  destruct (truthy (moderation_content d)) eqn:Hc; [|discriminate H]. simpl in H.
  destruct (JSON_parse (moderation_content d)) as [parsed|] eqn:Hj; [|discriminate H].
  destruct (truthy parsed) eqn:Ht; [|discriminate H].
  destruct (typeof parsed =? "object")%string eqn:Ho; [|discriminate H].
  destruct (truthy (prop parsed "status")) eqn:Hs; [|discriminate H].
  simpl in H. injection H as <-.
  apply String.eqb_eq in Ho.
  repeat split; try assumption. exists d. repeat split; assumption.
Qed.

Lemma verdict_shape_witness :
  called start (moderation_request "a cat" (VStr "o-key")) =
    called start (moderation_request "a cat" (VStr "o-key"))
  /\ typeof safe_verdict = "object"
  /\ truthy safe_verdict = true
  /\ truthy (prop safe_verdict "status") = true
  /\ exists d,
       two_providers (Ok (Data (chat_completion (VStr "verdict")))) (Throw (Error "down"))
         (moderation_request "a cat" (VStr "o-key")) = Ok (Data d)
       /\ truthy (moderation_content d) = true
       /\ parse_table [("verdict", safe_verdict)] (moderation_content d) = Some safe_verdict.
Proof.
  apply (verdict_shape (parse_table [("verdict", safe_verdict)])
           (two_providers (Ok (Data (chat_completion (VStr "verdict")))) (Throw (Error "down")))
           "a cat" (VStr "o-key") safe_verdict start
           (called start (moderation_request "a cat" (VStr "o-key")))).
  vm_compute. reflexivity.
Defined.

(** ** The image route *)

Lemma has_inline_data_state part w : fst (has_inline_data part w) = w.
Proof.
  unfold has_inline_data, member, bind. destruct (nullish part); [reflexivity|]. simpl.
  destruct (truthy (prop part "inlineData")); reflexivity.
Qed.

Lemma find_first_state ps : forall w, fst (find_first has_inline_data ps w) = w.
Proof.
  induction ps as [|p ps IH]; intros w; simpl; [reflexivity|].
  unfold bind. pose proof (has_inline_data_state p w) as H.
  destruct (has_inline_data p w) as [w1 [[|]|err]]; simpl in H; subst w1;
    [reflexivity | apply IH | reflexivity].
Qed.

Lemma array_find_state v w : fst (array_find v has_inline_data w) = w.
Proof. destruct v; try reflexivity. apply find_first_state. Qed.

Lemma truthy_not_nullish v : truthy v = true -> nullish v = false.
Proof. destruct v; simpl; try discriminate; reflexivity. Qed.

Lemma image_failure_run err w :
  image_failure err w =
  (replied w (status_or_500 err)
     (VObj [("error", VStr "Failed to communicate with Gemini image API");
            ("details", details_of err)]),
   Ok tt).
Proof. reflexivity. Qed.

(** Reading the answer of the image model, with the catch block around it,
    sends one JSON reply. *)
Lemma read_image_replies d w :
  exists code v,
    (let '(w2, r) := read_image d w in
     match r with
     | Ok a => (w2, Ok a)
     | Throw err => image_failure err w2
     end) = (replied w code v, Ok tt).
Proof.
  unfold read_image, bind.
  pose proof (array_find_state (response_parts d) w) as Hs.
  destruct (array_find (response_parts d) has_inline_data w) as [w1 [found|err]];
    simpl in Hs; subst w1.
  - destruct (truthy found) eqn:Ht; simpl.
    + unfold member. rewrite (truthy_not_nullish found Ht). do 2 eexists. reflexivity.
    + do 2 eexists. reflexivity.
  - do 2 eexists. apply image_failure_run.
Qed.

(** The generation stage always sends exactly one JSON reply. *)
Lemma generation_run net key req_body finalPrompt w :
  exists code v cs,
    try_catch (generate net key req_body finalPrompt) image_failure w =
    ({| calls := cs; response := response (replied w code v) |}, Ok tt).
Proof.
  rewrite generate_unfold. unfold try_catch, member.
  destruct (nullish req_body).
  { do 3 eexists. reflexivity. }
  rewrite bind_ret. unfold axios_data, axios, bind at 1 2.
  set (rq := image_request key (prop req_body "referenceImage") finalPrompt).
  destruct (net rq) as [[d|cs f]|err].
  - unfold ret at 1. cbv iota beta.
    destruct (read_image_replies d {| calls := calls w ++ [rq]; response := response w |})
      as (code & v & H).
    rewrite H. exists code, v. eexists. reflexivity.
  - unfold ret at 1. cbv iota beta.
    destruct (read_image_replies (VObj [])
                {| calls := calls w ++ [rq]; response := response w |})
      as (code & v & H).
    rewrite H. exists code, v. eexists. reflexivity.
  - do 3 eexists. reflexivity.
Qed.

Lemma generation_replies net key req_body finalPrompt w :
  exists code v,
    response (fst (try_catch (generate net key req_body finalPrompt) image_failure w)) =
      response (replied w code v)
    /\ snd (try_catch (generate net key req_body finalPrompt) image_failure w) = Ok tt.
Proof.
  destruct (generation_run net key req_body finalPrompt w) as (code & v & cs & H).
  rewrite H. exists code, v. split; reflexivity.
Qed.

(** X6: whatever the providers answer, the image route sends the client
    exactly one JSON reply and completes, for every request with a body. *)
Theorem image_one_reply
    (JSON_parse : value -> option value) (net : network) (e : env) (req_body : value) :
  nullish req_body = false ->
  exists code v,
    response (fst (run (gemini_image JSON_parse net e req_body))) = json_reply code [] v
    /\ snd (run (gemini_image JSON_parse net e req_body)) = Ok tt.
Proof.
  intros Hb.
  destruct (truthy (getenv e "GEMINI_API_KEY")) eqn:Hg.
  2: { unfold run, gemini_image. rewrite Hg. do 2 eexists. split; reflexivity. }
  destruct (string_dec (image_prompt (prop req_body "prompt")) "") as [Hp|Hp].
  { unfold run, gemini_image, member. rewrite Hg, Hb, bind_ret, Hp.
    do 2 eexists. split; reflexivity. }
  rewrite (gemini_image_run JSON_parse net e req_body Hg Hb Hp).
  set (p := image_prompt (prop req_body "prompt")).
  assert (Hgen : forall w fp, response w = fresh_res ->
            exists code v,
              response (fst (try_catch (generate net (getenv e "GEMINI_API_KEY") req_body fp)
                               image_failure w)) = json_reply code [] v
              /\ snd (try_catch (generate net (getenv e "GEMINI_API_KEY") req_body fp)
                        image_failure w) = Ok tt).
  { intros w fp Hw.
    destruct (generation_replies net (getenv e "GEMINI_API_KEY") req_body fp w)
      as (code & v & H1 & H2).
    exists code, v. split; [|exact H2]. rewrite H1. simpl. rewrite Hw. reflexivity. }
  destruct (truthy (getenv e "OPENAI_API_KEY")) eqn:Ho.
  - rewrite (moderate_run _ _ _ _ _ Ho). cbv zeta.
    destruct (verdict_of JSON_parse _) as [verdict|err].
    + destruct (is_str (prop verdict "status") "safe").
      * apply Hgen. reflexivity.
      * do 2 eexists. split; reflexivity.
    + apply Hgen. reflexivity.
  - rewrite (moderate_skipped _ _ _ _ _ Ho). apply Hgen. reflexivity.
Qed.

Lemma image_one_reply_witness :
  exists code v,
    response (fst (run (gemini_image (parse_table [])
                          (fun _ => Throw (AxiosError None "socket hang up"))
                          both_keys (image_body "a cat")))) = json_reply code [] v
    /\ snd (run (gemini_image (parse_table [])
                   (fun _ => Throw (AxiosError None "socket hang up"))
                   both_keys (image_body "a cat"))) = Ok tt.
Proof.
  apply (image_one_reply (parse_table []) (fun _ => Throw (AxiosError None "socket hang up"))
           both_keys (image_body "a cat")).
  reflexivity.
Defined.

(** X7: the image route makes no call, or the image call alone when there
    is no OpenAI key, or, with the key, the moderation call first and then
    at most the image call: never two calls to one provider, never the
    image call before the moderation call, and without the key never a call
    with another prompt than that of the request. *)
Theorem image_calls_shape
    (JSON_parse : value -> option value) (net : network) (e : env) (req_body : value) :
  let prompt := image_prompt (prop req_body "prompt") in
  let openai_key := getenv e "OPENAI_API_KEY" in
  let moderation := moderation_request prompt openai_key in
  let image := image_request (getenv e "GEMINI_API_KEY") (prop req_body "referenceImage") in
  let cs := calls (fst (run (gemini_image JSON_parse net e req_body))) in
  cs = []
  \/ (truthy openai_key = false /\ cs = [image (VStr prompt)])
  \/ (truthy openai_key = true
      /\ (cs = [moderation] \/ exists finalPrompt, cs = [moderation; image finalPrompt])).
Proof.
  cbv zeta.
  destruct (truthy (getenv e "GEMINI_API_KEY")) eqn:Hg.
  2: { left. unfold run, gemini_image. rewrite Hg. reflexivity. }
  destruct (nullish req_body) eqn:Hb.
  { left. unfold run, gemini_image, member. rewrite Hg, Hb. reflexivity. }
  destruct (string_dec (image_prompt (prop req_body "prompt")) "") as [Hp|Hp].
  { left. unfold run, gemini_image, member. rewrite Hg, Hb, bind_ret, Hp. reflexivity. }
  right.
  rewrite (gemini_image_run JSON_parse net e req_body Hg Hb Hp).
  destruct (truthy (getenv e "OPENAI_API_KEY")) eqn:Ho.
  - right. split; [reflexivity|].
    rewrite (moderate_run _ _ _ _ _ Ho). cbv zeta.
    destruct (verdict_of JSON_parse _) as [verdict|err].
    + destruct (is_str (prop verdict "status") "safe").
      * right. eexists. rewrite generate_calls by exact Hb. reflexivity.
      * left. reflexivity.
    + right. eexists. rewrite generate_calls by exact Hb. reflexivity.
  - left. split; [reflexivity|].
    rewrite (moderate_skipped _ _ _ _ _ Ho). rewrite generate_calls by exact Hb. reflexivity.
Qed.

Lemma status_or_500_relayed upstream message :
  status_or_500 (AxiosError upstream message) = relayed_status upstream.
Proof.
  destruct upstream as [[st d]|]; [|reflexivity]. simpl.
  destruct (st =? 0); reflexivity.
Qed.

Lemma details_of_relayed upstream message :
  details_of (AxiosError upstream message) = relayed_details upstream message.
Proof. destruct upstream as [[st d]|]; reflexivity. Qed.

(** X8: when the moderation block lets the request through and the call of
    the image model fails, the route answers with the status of the
    upstream response (500 if there is none, or if it is 0) and, under
    [details], the data of the upstream response (the message of the error
    if there is none, or if it is falsy). *)
Theorem image_upstream_failure
    (JSON_parse : value -> option value) (net : network) (e : env)
    (req_body finalPrompt : value) (w1 : world)
    (upstream : option (Z * value)) (message : string) :
  let prompt := image_prompt (prop req_body "prompt") in
  let gemini_key := getenv e "GEMINI_API_KEY" in
  let image := image_request gemini_key (prop req_body "referenceImage") finalPrompt in
  truthy gemini_key = true ->
  nullish req_body = false ->
  prompt <> "" ->
  moderate JSON_parse net e prompt start = (w1, Ok (Proceed finalPrompt)) ->
  net image = Throw (AxiosError upstream message) ->
  run (gemini_image JSON_parse net e req_body) =
  ({| calls := calls w1 ++ [image];
      response :=
        json_reply (relayed_status upstream) []
          (VObj [("error", VStr "Failed to communicate with Gemini image API");
                 ("details", relayed_details upstream message)]) |},
   Ok tt).
Proof.
  intros prompt gemini_key image Hg Hb Hp Hm Hn.
  rewrite (gemini_image_run JSON_parse net e req_body Hg Hb Hp).
  fold prompt. rewrite Hm. fold gemini_key.
  pose proof (moderate_proceed_response JSON_parse net e req_body _ _ _ Hm) as Hres.
  rewrite generate_unfold. unfold try_catch, member. rewrite Hb, bind_ret.
  unfold axios_data, axios, bind at 1 2. fold image. rewrite Hn.
  rewrite image_failure_run, status_or_500_relayed, details_of_relayed.
  unfold replied, json_reply. cbn [calls response]. rewrite Hres. reflexivity.
Qed.

Lemma image_upstream_failure_witness :
  run (gemini_image (parse_table [])
         (fun _ => Throw (AxiosError (Some (429, VObj [("error", VStr "quota")])) "Request failed"))
         gemini_only (image_body "a cat")) =
  ({| calls := [image_request (VStr "g-key") VUndefined (VStr "a cat")];
      response :=
        json_reply 429 []
          (VObj [("error", VStr "Failed to communicate with Gemini image API");
                 ("details", VObj [("error", VStr "quota")])]) |},
   Ok tt).
Proof.
  apply (image_upstream_failure (parse_table [])
           (fun _ => Throw (AxiosError (Some (429, VObj [("error", VStr "quota")]))
                              "Request failed"))
           gemini_only (image_body "a cat") (VStr "a cat") start
           (Some (429, VObj [("error", VStr "quota")])) "Request failed").
  - reflexivity.
  - reflexivity.
  - vm_compute. discriminate.
  - reflexivity.
  - reflexivity.
Defined.



(** X10: with the Gemini key, a request whose prompt is missing, is not a
    string, or holds nothing but white space is refused with 400 before any
    upstream call, moderation included. *)
Theorem image_blank_prompt
    (JSON_parse : value -> option value) (net : network) (e : env) (req_body : value) :
  truthy (getenv e "GEMINI_API_KEY") = true ->
  nullish req_body = false ->
  image_prompt (prop req_body "prompt") = "" ->
  run (gemini_image JSON_parse net e req_body) =
  ({| calls := [];
      response :=
        json_reply 400 [] (VObj [("error", VStr "No prompt provided for image generation.")]) |},
   Ok tt).
Proof.
  intros Hg Hb Hp. unfold run, gemini_image, member. rewrite Hg, Hb, bind_ret, Hp.
  reflexivity.
Qed.

Lemma image_blank_prompt_witness :
  run (gemini_image (parse_table [])
         (two_providers (Throw (Error "unreachable")) (Throw (Error "unreachable")))
         both_keys (VObj [("prompt", VStr (" " ++ newline ++ bytes [194; 160]%nat))])) =
  ({| calls := [];
      response :=
        json_reply 400 [] (VObj [("error", VStr "No prompt provided for image generation.")]) |},
   Ok tt).
Proof.
  apply (image_blank_prompt (parse_table [])
           (two_providers (Throw (Error "unreachable")) (Throw (Error "unreachable")))
           both_keys (VObj [("prompt", VStr (" " ++ newline ++ bytes [194; 160]%nat))])).
  - reflexivity.
  - reflexivity.
  - vm_compute. reflexivity.
Defined.

(** ** The Gemini chat route *)

Lemma stateless_ret {A} (a : A) : stateless (ret a).
Proof. intros w. reflexivity. Qed.

Lemma stateless_throw {A} err : stateless (@throw A err).
Proof. intros w. reflexivity. Qed.

Lemma stateless_bind {A B} (m : M A) (k : A -> M B) :
  stateless m -> (forall a, stateless (k a)) -> stateless (bind m k).
Proof.
  intros Hm Hk w. unfold bind. rewrite (Hm w), (Hm start).
  destruct (snd (m start)) as [a|err]; simpl; [|reflexivity].
  rewrite (Hk a w). reflexivity.
Qed.

Lemma stateless_member v k : stateless (member v k).
Proof. unfold member. destruct (nullish v); [apply stateless_throw | apply stateless_ret]. Qed.

Lemma stateless_part_text part : stateless (part_text part).
Proof.
  unfold part_text. apply stateless_bind; [apply stateless_member|].
  intros t. destruct (typeof t =? "string")%string; apply stateless_ret.
Qed.

Lemma stateless_map_each ps : stateless (map_each part_text ps).
Proof.
  induction ps as [|p ps IH]; simpl; [apply stateless_ret|].
  apply stateless_bind; [apply stateless_part_text|]. intros y.
  apply stateless_bind; [exact IH|]. intros ys. apply stateless_ret.
Qed.

Lemma stateless_array_map v : stateless (array_map v part_text).
Proof. destruct v; simpl; try apply stateless_throw. apply stateless_map_each. Qed.

Section Chat.

Variable JSON_stringify : value -> string.
Variable net : network.
Variable e : env.
Variable req_body : value.

Let gemini_key := getenv e "GEMINI_API_KEY".
Let f := formatMessagesForGemini (body_messages req_body).
Let rq := chat_request gemini_key f.
Let chat_error (err : exn) : value :=
  VObj [("error", VStr "Failed to communicate with Gemini chat API");
        ("details", details_of err)].

(** Past its three checks, the route sets the headers, makes its one call
    and either writes the two events or answers with a JSON error. *)
Lemma gemini_chat_run :
  truthy gemini_key = true ->
  negb (truthy (body_messages req_body)) || negb (isArray (body_messages req_body))
    || (messages_length (body_messages req_body) =? 0)%nat = false ->
  (length (contents f) =? 0)%nat = false ->
  run (gemini_chat JSON_stringify net e req_body) =
  match net rq with
  | Throw err =>
      ({| calls := [rq];
          response := json_reply (status_or_500 err) event_stream_headers (chat_error err) |},
       Ok tt)
  | Ok p =>
      match chat_texts (data_of p) with
      | Ok texts =>
          ({| calls := [rq];
              response :=
                sse_reply
                  [ "data: " ++ JSON_stringify (event_payload (join texts))
                    ++ newline ++ newline;
                    done_line ] |},
           Ok tt)
      | Throw err =>
          ({| calls := [rq];
              response :=
                json_reply (status_or_500 err) event_stream_headers (chat_error err) |},
           Ok tt)
      end
  end.
Proof.
  intros Hg Hm Hc. unfold run, gemini_chat. fold gemini_key. rewrite Hg. cbn [negb].
  fold (body_messages req_body). rewrite Hm. fold f. rewrite Hc.
  unfold sse_headers, res_setHeader, update_res, try_catch, bind at 1 2 3.
  cbn [calls response start fresh_res statusCode res_headers headersSent body finished app].
  unfold axios_data, axios, bind at 1 2 3. cbn [calls response app]. fold rq.
  destruct (net rq) as [p|err]; [|reflexivity].
  assert (Hret : forall w : world,
            (match p with Data v => ret v | Stream _ _ => ret (VObj []) end) w
            = (w, Ok (data_of p))) by (intros; destruct p; reflexivity).
  rewrite Hret. cbv iota beta. fold (response_parts (data_of p)).
  unfold bind at 1. rewrite (stateless_array_map (response_parts (data_of p)) _).
  fold (chat_texts (data_of p)).
  destruct (chat_texts (data_of p)) as [texts|err]; reflexivity.
Qed.

End Chat.

(** X11: with the Gemini key, a chat request whose messages are missing,
    are not an array, or are an empty array is refused with 400 before any
    upstream call, whatever else the body holds. *)
Theorem chat_without_messages
    (JSON_stringify : value -> string) (net : network) (e : env) (req_body : value) :
  truthy (getenv e "GEMINI_API_KEY") = true ->
  isArray (body_messages req_body) = false \/ body_messages req_body = VArr [] ->
  run (gemini_chat JSON_stringify net e req_body) =
  ({| calls := [];
      response :=
        json_reply 400 [] (VObj [("error", VStr "No messages provided for Gemini chat.")]) |},
   Ok tt).
Proof.
  intros Hg Hm. unfold run, gemini_chat. rewrite Hg. cbn [negb].
  fold (body_messages req_body).
  assert (Hc : negb (truthy (body_messages req_body))
               || negb (isArray (body_messages req_body))
               || (messages_length (body_messages req_body) =? 0)%nat = true).
  { destruct Hm as [Hm|Hm]; rewrite Hm; [|reflexivity].
    destruct (truthy (body_messages req_body)); reflexivity. }
  rewrite Hc. reflexivity.
Qed.

Lemma chat_without_messages_witness :
  run (gemini_chat (fun _ => "") (fun _ => Throw (Error "unreachable")) gemini_only
         (VObj [("messages", VStr "hello")])) =
  ({| calls := [];
      response :=
        json_reply 400 [] (VObj [("error", VStr "No messages provided for Gemini chat.")]) |},
   Ok tt).
Proof.
  apply (chat_without_messages (fun _ => "") (fun _ => Throw (Error "unreachable"))
           gemini_only (VObj [("messages", VStr "hello")])).
  - reflexivity.
  - left. reflexivity.
Defined.

Lemma chat_checks_passed msgs :
  contents (formatMessagesForGemini (VArr msgs)) <> [] ->
  negb (truthy (VArr msgs)) || negb (isArray (VArr msgs))
    || (messages_length (VArr msgs) =? 0)%nat = false
  /\ (length (contents (formatMessagesForGemini (VArr msgs))) =? 0)%nat = false.
Proof.
  intros Hc. split.
  - destruct msgs; [exfalso; apply Hc; reflexivity | reflexivity].
  - destruct (contents (formatMessagesForGemini (VArr msgs))); [contradiction | reflexivity].
Qed.

(** X12: when the call of the chat model fails, the Gemini chat route
    answers with one JSON error, not with events: the status is that of the
    upstream response (500 without one), the details are its data (the
    message of the error without them), and the event-stream headers set
    before the call stay on the response. *)
Theorem chat_upstream_failure
    (JSON_stringify : value -> string) (net : network) (e : env)
    (req_body : value) (msgs : list value)
    (upstream : option (Z * value)) (message : string) :
  let gemini_key := getenv e "GEMINI_API_KEY" in
  let f := formatMessagesForGemini (VArr msgs) in
  truthy gemini_key = true ->
  body_messages req_body = VArr msgs ->
  contents f <> [] ->
  net (chat_request gemini_key f) = Throw (AxiosError upstream message) ->
  run (gemini_chat JSON_stringify net e req_body) =
  ({| calls := [chat_request gemini_key f];
      response :=
        json_reply (relayed_status upstream) event_stream_headers
          (VObj [("error", VStr "Failed to communicate with Gemini chat API");
                 ("details", relayed_details upstream message)]) |},
   Ok tt).
Proof.
  intros gemini_key f Hg Hm Hc Hn.
  destruct (chat_checks_passed msgs Hc) as [H1 H2].
  rewrite gemini_chat_run; rewrite ?Hm; try assumption.
  fold gemini_key f. rewrite Hn, status_or_500_relayed, details_of_relayed. reflexivity.
Qed.

Lemma chat_upstream_failure_witness :
  run (gemini_chat (fun _ => "")
         (fun _ => Throw (AxiosError (Some (503, VStr "overloaded")) "Request failed"))
         gemini_only (VObj [("messages", VArr [turn "user" "hi"])])) =
  ({| calls :=
        [chat_request (VStr "g-key") (formatMessagesForGemini (VArr [turn "user" "hi"]))];
      response :=
        json_reply 503 event_stream_headers
          (VObj [("error", VStr "Failed to communicate with Gemini chat API");
                 ("details", VStr "overloaded")]) |},
   Ok tt).
Proof.
  apply (chat_upstream_failure (fun _ => "")
           (fun _ => Throw (AxiosError (Some (503, VStr "overloaded")) "Request failed"))
           gemini_only (VObj [("messages", VArr [turn "user" "hi"])]) [turn "user" "hi"]
           (Some (503, VStr "overloaded")) "Request failed").
  - reflexivity.
  - reflexivity.
  - vm_compute. discriminate.
  - reflexivity.
Defined.

(** X13: whatever the body and whatever the chat model answers, the Gemini
    chat route completes, ends the response, makes at most one call, and
    sends either one JSON body or exactly the two events of the stream, with
    status 200: it never sends an event after an error, nor a part of the
    stream. *)
Theorem chat_one_reply
    (JSON_stringify : value -> string) (net : network) (e : env) (req_body : value) :
  let out := run (gemini_chat JSON_stringify net e req_body) in
  snd out = Ok tt
  /\ finished (response (fst out)) = true
  /\ (length (calls (fst out)) <= 1)%nat
  /\ ((exists v, body (response (fst out)) = [Json v])
      \/ (exists text,
            statusCode (response (fst out)) = 200
            /\ body (response (fst out)) =
               [Text ("data: " ++ JSON_stringify (event_payload text) ++ newline ++ newline);
                Text done_line])).
Proof.
  cbv zeta.
  destruct (truthy (getenv e "GEMINI_API_KEY")) eqn:Hg.
  2: { unfold run, gemini_chat. rewrite Hg. simpl.
       repeat split; try lia. left. eexists. reflexivity. }
  destruct (negb (truthy (body_messages req_body)) || negb (isArray (body_messages req_body))
            || (messages_length (body_messages req_body) =? 0)%nat) eqn:Hm.
  { unfold run, gemini_chat. rewrite Hg. cbn [negb]. fold (body_messages req_body).
    rewrite Hm. simpl. repeat split; try lia. left. eexists. reflexivity. }
  destruct (length (contents (formatMessagesForGemini (body_messages req_body))) =? 0)%nat
    eqn:Hc.
  { unfold run, gemini_chat. rewrite Hg. cbn [negb]. fold (body_messages req_body).
    rewrite Hm, Hc. simpl. repeat split; try lia. left. eexists. reflexivity. }
  rewrite (gemini_chat_run JSON_stringify net e req_body Hg Hm Hc).
  destruct (net _) as [p|err].
  - destruct (chat_texts (data_of p)) as [texts|err]; simpl.
    + repeat split; try lia. right. exists (join texts). split; reflexivity.
    + repeat split; try lia. left. eexists. reflexivity.
  - simpl. repeat split; try lia. left. eexists. reflexivity.
Qed.

(** ** The OpenAI chat route *)

Lemma write_all_run chunks : forall w,
  write_all chunks w = ({| calls := calls w; response := wrote (response w) chunks |}, Ok tt).
Proof.
  induction chunks as [|c chunks IH]; intros [cs r]; simpl.
  - unfold ret, wrote. simpl. rewrite orb_false_r, app_nil_r. destruct r; reflexivity.
  - unfold bind, res_write, emit, update_res. simpl. rewrite IH. unfold wrote. simpl.
    rewrite <- app_assoc, orb_true_r. reflexivity.
Qed.

Section OpenAI.

Variable net : network.
Variable e : env.
Variable req_body : value.

Let key := getenv e "OPENAI_API_KEY".
Let rq := openai_request key req_body.

Hypothesis key_set : truthy key = true.
Hypothesis body_present : nullish req_body = false.

(** With the key and a body, the route checks the messages, makes its one
    call and relays what comes back. *)
Lemma openai_chat_run :
  run (openai_chat net e req_body) =
  if truthy (prop req_body "messages") then
    match net rq with
    | Throw err =>
        if has_response err then
          ({| calls := [rq];
              response :=
                {| statusCode := status_or_500 err; res_headers := [];
                   headersSent := false; body := []; finished := false |} |},
           Throw (TypeError "Converting circular structure to JSON"))
        else
          ({| calls := [rq];
              response :=
                json_reply (status_or_500 err) []
                  (VObj [("error", VStr "Failed to communicate with OpenAI API");
                         ("details", VStr (exn_message err))]) |},
           Ok tt)
    | Ok (Data _) =>
        ({| calls := [rq];
            response :=
              json_reply 500 event_stream_headers
                (VObj [("error", VStr "Failed to communicate with OpenAI API");
                       ("details", VStr "openaiResponse.data.pipe is not a function")]) |},
         Ok tt)
    | Ok (Stream chunks None) =>
        ({| calls := [rq]; response := sse_reply chunks |}, Ok tt)
    | Ok (Stream chunks (Some _)) =>
        ({| calls := [rq];
            response :=
              if (length chunks =? 0)%nat then
                plain_reply 500 event_stream_headers
                  (Text "Error streaming response from OpenAI.")
              else sse_reply chunks |},
         Ok tt)
    end
  else
    ({| calls := [];
        response :=
          json_reply 400 []
            (VObj [("error",
                    VStr "No messages provided in the request body for OpenAI chat.")]) |},
     Ok tt).
Proof.
  unfold run, openai_chat, member. rewrite body_present, bind_ret. fold key.
  rewrite key_set. cbn [negb]. rewrite bind_ret.
  destruct (truthy (prop req_body "messages")); [|reflexivity]. cbn [negb].
  unfold try_catch, axios, bind at 1. fold (openai_request key req_body). fold rq.
  cbn [calls start app].
  destruct (net rq) as [[d|chunks failure]|err].
  - reflexivity.
  - unfold sse_headers, res_setHeader, update_res, bind at 1 2 3.
    cbn [calls response start fresh_res statusCode res_headers headersSent body finished app].
    unfold pipe_to_client, bind at 1. rewrite write_all_run.
    cbn [calls response]. unfold wrote.
    cbn [statusCode res_headers headersSent body finished app orb].
    destruct failure as [err|].
    + unfold get_headersSent, bind at 1. cbn [response headersSent].
      destruct chunks as [|c chunks]; reflexivity.
    + reflexivity.
  - unfold get_headersSent, bind at 1. cbn [response start fresh_res headersSent negb].
    destruct (has_response err); reflexivity.
Qed.

End OpenAI.

(** X14: pass-through: when OpenAI answers with a stream that ends
    normally, the route makes one call (the model of the body, or the
    default one, the messages of the body, streaming on, the key as bearer
    token) and the client receives, with the event-stream headers and
    status 200, the chunks of the stream, each as it is and in their order,
    and then the end of the response. *)
Theorem openai_pass_through
    (net : network) (e : env) (req_body : value) (chunks : list string) :
  let key := getenv e "OPENAI_API_KEY" in
  truthy key = true ->
  nullish req_body = false ->
  truthy (prop req_body "messages") = true ->
  net (openai_request key req_body) = Ok (Stream chunks None) ->
  run (openai_chat net e req_body) =
  ({| calls := [openai_request key req_body]; response := sse_reply chunks |}, Ok tt).
Proof.
  intros key Hk Hb Hm Hn.
  rewrite (openai_chat_run net e req_body Hk Hb), Hm. fold key. rewrite Hn. reflexivity.
Qed.

Lemma openai_pass_through_witness :
  run (openai_chat (fun _ => Ok (Stream ["data: a"; "data: b"; "data: [DONE]"] None))
         both_keys (VObj [("messages", VArr [turn "user" "hi"])])) =
  ({| calls :=
        [openai_request (VStr "o-key") (VObj [("messages", VArr [turn "user" "hi"])])];
      response := sse_reply ["data: a"; "data: b"; "data: [DONE]"] |},
   Ok tt).
Proof.
  apply (openai_pass_through
           (fun _ => Ok (Stream ["data: a"; "data: b"; "data: [DONE]"] None))
           both_keys (VObj [("messages", VArr [turn "user" "hi"])])
           ["data: a"; "data: b"; "data: [DONE]"]); reflexivity.
Defined.

(** X15: when the stream of OpenAI breaks, the client keeps what was relayed:
    after at least one chunk the response is ended as it is, with status 200
    and no error body; before the first chunk the route answers 500 with the
    text [Error streaming response from OpenAI.]. *)
Theorem openai_stream_breaks
    (net : network) (e : env) (req_body : value) (chunks : list string) (failure : string) :
  let key := getenv e "OPENAI_API_KEY" in
  truthy key = true ->
  nullish req_body = false ->
  truthy (prop req_body "messages") = true ->
  net (openai_request key req_body) = Ok (Stream chunks (Some failure)) ->
  run (openai_chat net e req_body) =
  ({| calls := [openai_request key req_body];
      response :=
        match chunks with
        | [] =>
            plain_reply 500 event_stream_headers
              (Text "Error streaming response from OpenAI.")
        | _ :: _ => sse_reply chunks
        end |},
   Ok tt).
Proof.
  intros key Hk Hb Hm Hn.
  rewrite (openai_chat_run net e req_body Hk Hb), Hm. fold key. rewrite Hn.
  destruct chunks; reflexivity.
Qed.

Lemma openai_stream_breaks_witness :
  run (openai_chat (fun _ => Ok (Stream ["data: a"] (Some "ECONNRESET")))
         both_keys (VObj [("messages", VArr [turn "user" "hi"])])) =
  ({| calls :=
        [openai_request (VStr "o-key") (VObj [("messages", VArr [turn "user" "hi"])])];
      response := sse_reply ["data: a"] |},
   Ok tt).
Proof.
  apply (openai_stream_breaks (fun _ => Ok (Stream ["data: a"] (Some "ECONNRESET")))
           both_keys (VObj [("messages", VArr [turn "user" "hi"])])
           ["data: a"] "ECONNRESET"); reflexivity.
Defined.

(** X16: when the call to OpenAI is rejected without an upstream response,
    the route answers 500 with one JSON error whose details are the message
    of the error.  When it is rejected with an upstream response, the catch
    block sets the upstream status (500 if it is 0), but the data of that
    response is a stream, on which [res.json] throws: the handler throws
    and nothing is sent to the client. *)
Theorem openai_upstream_failure
    (net : network) (e : env) (req_body : value)
    (upstream : option (Z * value)) (message : string) :
  let key := getenv e "OPENAI_API_KEY" in
  let out := run (openai_chat net e req_body) in
  truthy key = true ->
  nullish req_body = false ->
  truthy (prop req_body "messages") = true ->
  net (openai_request key req_body) = Throw (AxiosError upstream message) ->
  calls (fst out) = [openai_request key req_body]
  /\ match upstream with
     | None =>
         response (fst out) =
           json_reply 500 []
             (VObj [("error", VStr "Failed to communicate with OpenAI API");
                    ("details", VStr message)])
         /\ snd out = Ok tt
     | Some _ =>
         statusCode (response (fst out)) = relayed_status upstream
         /\ body (response (fst out)) = []
         /\ headersSent (response (fst out)) = false
         /\ finished (response (fst out)) = false
         /\ exists thrown, snd out = Throw (TypeError thrown)
     end.
Proof.
  intros key out Hk Hb Hm Hn. subst out.
  rewrite (openai_chat_run net e req_body Hk Hb), Hm. fold key. rewrite Hn.
  destruct upstream as [[st d]|]; cbn [has_response].
  - rewrite status_or_500_relayed. cbn [fst snd calls response statusCode body headersSent finished].
    repeat split. eexists. reflexivity.
  - repeat split.
Qed.

Lemma openai_upstream_failure_witness :
  let out :=
    run (openai_chat (fun _ => Throw (AxiosError (Some (401, VNull)) "Request failed"))
           both_keys (VObj [("messages", VArr [turn "user" "hi"])])) in
  calls (fst out) =
    [openai_request (VStr "o-key") (VObj [("messages", VArr [turn "user" "hi"])])]
  /\ statusCode (response (fst out)) = 401
  /\ body (response (fst out)) = []
  /\ headersSent (response (fst out)) = false
  /\ finished (response (fst out)) = false
  /\ exists thrown, snd out = Throw (TypeError thrown).
Proof.
  apply (openai_upstream_failure
           (fun _ => Throw (AxiosError (Some (401, VNull)) "Request failed"))
           both_keys (VObj [("messages", VArr [turn "user" "hi"])])
           (Some (401, VNull)) "Request failed"); reflexivity.
Defined.

Example openai_call_unreachable :
  run (openai_chat (fun _ => Throw (AxiosError None "getaddrinfo ENOTFOUND"))
         both_keys (VObj [("messages", VArr [turn "user" "hi"])])) =
  ({| calls :=
        [openai_request (VStr "o-key") (VObj [("messages", VArr [turn "user" "hi"])])];
      response :=
        json_reply 500 []
          (VObj [("error", VStr "Failed to communicate with OpenAI API");
                 ("details", VStr "getaddrinfo ENOTFOUND")]) |},
   Ok tt).
Proof. vm_compute. reflexivity. Qed.

(** X17: with the key, a chat request whose body has no messages (or falsy
    ones) is refused with 400 before any upstream call. *)
Theorem openai_without_messages (net : network) (e : env) (req_body : value) :
  truthy (getenv e "OPENAI_API_KEY") = true ->
  nullish req_body = false ->
  truthy (prop req_body "messages") = false ->
  run (openai_chat net e req_body) =
  ({| calls := [];
      response :=
        json_reply 400 []
          (VObj [("error",
                  VStr "No messages provided in the request body for OpenAI chat.")]) |},
   Ok tt).
Proof.
  intros Hk Hb Hm. rewrite (openai_chat_run net e req_body Hk Hb), Hm. reflexivity.
Qed.

Lemma openai_without_messages_witness :
  run (openai_chat (fun _ => Throw (Error "unreachable")) both_keys
         (VObj [("model", VStr "gpt-5")])) =
  ({| calls := [];
      response :=
        json_reply 400 []
          (VObj [("error",
                  VStr "No messages provided in the request body for OpenAI chat.")]) |},
   Ok tt).
Proof.
  apply (openai_without_messages (fun _ => Throw (Error "unreachable")) both_keys
           (VObj [("model", VStr "gpt-5")])); reflexivity.
Defined.

(** ** The text-to-speech route *)

Section Speech.

Variable JSON_parse : value -> option value.
Variable net : network.
Variable e : env.
Variable req_body : value.

Let rq := tts_request e req_body.

Hypothesis key_set : truthy (getenv e "ELEVENLABS_API_KEY") = true.
Hypothesis body_present : nullish req_body = false.

(** With the key and a body, the route checks the text, makes its one call
    and answers with the audio or with an error. *)
Lemma elevenlabs_tts_run :
  run (elevenlabs_tts JSON_parse net e req_body) =
  if truthy (prop req_body "text") then
    match net rq with
    | Ok p =>
        ({| calls := [rq]; response := plain_reply 200 audio_headers (Raw (data_of p)) |},
         Ok tt)
    | Throw err => ({| calls := [rq]; response := tts_error_reply JSON_parse err |}, Ok tt)
    end
  else
    ({| calls := [];
        response :=
          json_reply 400 [] (VObj [("error", VStr "No text provided for ElevenLabs TTS.")]) |},
     Ok tt).
Proof.
  unfold run, elevenlabs_tts. rewrite key_set. cbn [negb].
  unfold member. rewrite body_present, bind_ret.
  destruct (truthy (prop req_body "text")); [|reflexivity]. cbn [negb].
  unfold try_catch, axios_data, axios, bind at 1 2 3.
  fold (tts_request e req_body). fold rq. cbn [calls start app].
  destruct (net rq) as [p|err].
  - destruct p; reflexivity.
  - unfold get_headersSent, bind at 1. cbn [response start fresh_res headersSent negb].
    unfold tts_error_reply.
    destruct (has_response err); [|reflexivity].
    unfold try_catch.
    destruct (JSON_parse (exn_data err)) as [errorDetails|]; [|reflexivity].
    unfold member, bind at 1.
    destruct (nullish errorDetails); reflexivity.
Qed.

End Speech.

(** X18: when ElevenLabs answers, the route has made one call (the text of
    the body, the fixed model and voice settings, the voice of the
    environment or the default one, the key in [xi-api-key]) and the client
    receives the audio bytes as they came, in one piece, as [audio/mpeg]. *)
Theorem tts_audio_relayed
    (JSON_parse : value -> option value) (net : network) (e : env)
    (req_body audio : value) :
  truthy (getenv e "ELEVENLABS_API_KEY") = true ->
  nullish req_body = false ->
  truthy (prop req_body "text") = true ->
  net (tts_request e req_body) = Ok (Data audio) ->
  run (elevenlabs_tts JSON_parse net e req_body) =
  ({| calls := [tts_request e req_body];
      response := plain_reply 200 audio_headers (Raw audio) |},
   Ok tt).
Proof.
  intros Hk Hb Ht Hn.
  rewrite (elevenlabs_tts_run JSON_parse net e req_body Hk Hb), Ht, Hn. reflexivity.
Qed.

Lemma tts_audio_relayed_witness :
  run (elevenlabs_tts (parse_table []) (fun _ => Ok (Data (VStr "ID3-bytes")))
         eleven_keys (speak "hello")) =
  ({| calls := [tts_request eleven_keys (speak "hello")];
      response := plain_reply 200 audio_headers (Raw (VStr "ID3-bytes")) |},
   Ok tt).
Proof.
  apply (tts_audio_relayed (parse_table []) (fun _ => Ok (Data (VStr "ID3-bytes")))
           eleven_keys (speak "hello") (VStr "ID3-bytes")); reflexivity.
Defined.

(** X19: when the call to ElevenLabs is rejected with a body that parses as
    JSON to something else than [null], the route answers, with the upstream
    status, one JSON error whose details are the [detail] of that body, else
    its [message], else [Unknown error]. *)
Theorem tts_error_explained
    (JSON_parse : value -> option value) (net : network) (e : env)
    (req_body d errorDetails : value) (st : Z) (message : string) :
  truthy (getenv e "ELEVENLABS_API_KEY") = true ->
  nullish req_body = false ->
  truthy (prop req_body "text") = true ->
  net (tts_request e req_body) = Throw (AxiosError (Some (st, d)) message) ->
  truthy d = true ->
  JSON_parse d = Some errorDetails ->
  nullish errorDetails = false ->
  run (elevenlabs_tts JSON_parse net e req_body) =
  ({| calls := [tts_request e req_body];
      response :=
        json_reply (relayed_status (Some (st, d))) []
          (VObj [("error", VStr "Failed to communicate with ElevenLabs API");
                 ("details",
                  if truthy (prop errorDetails "detail") then prop errorDetails "detail"
                  else if truthy (prop errorDetails "message") then prop errorDetails "message"
                  else VStr "Unknown error")]) |},
   Ok tt).
Proof.
  intros Hk Hb Ht Hn Hd Hj Hnull.
  rewrite (elevenlabs_tts_run JSON_parse net e req_body Hk Hb), Ht, Hn.
  unfold tts_error_reply. cbn [has_response exn_data]. rewrite Hj, Hnull.
  rewrite status_or_500_relayed. unfold or_else.
  destruct (truthy (prop errorDetails "detail")) eqn:E1; [rewrite E1; reflexivity|].
  destruct (truthy (prop errorDetails "message")) eqn:E2; rewrite ?E2; reflexivity.
Qed.

Lemma tts_error_explained_witness :
  run (elevenlabs_tts
         (parse_table [("quota-json", VObj [("detail", VStr "quota exceeded")])])
         (fun _ => Throw (AxiosError (Some (401, VStr "quota-json")) "Request failed"))
         eleven_keys (speak "hello")) =
  ({| calls := [tts_request eleven_keys (speak "hello")];
      response :=
        json_reply 401 []
          (VObj [("error", VStr "Failed to communicate with ElevenLabs API");
                 ("details", VStr "quota exceeded")]) |},
   Ok tt).
Proof.
  apply (tts_error_explained
           (parse_table [("quota-json", VObj [("detail", VStr "quota exceeded")])])
           (fun _ => Throw (AxiosError (Some (401, VStr "quota-json")) "Request failed"))
           eleven_keys (speak "hello") (VStr "quota-json")
           (VObj [("detail", VStr "quota exceeded")]) 401 "Request failed"); reflexivity.
Defined.

(** X20: when the call to ElevenLabs is rejected with a body that is not
    JSON, or is the JSON [null], the route passes that body on as it is,
    with the upstream status. *)
Theorem tts_error_passed_on
    (JSON_parse : value -> option value) (net : network) (e : env)
    (req_body d : value) (st : Z) (message : string) :
  truthy (getenv e "ELEVENLABS_API_KEY") = true ->
  nullish req_body = false ->
  truthy (prop req_body "text") = true ->
  net (tts_request e req_body) = Throw (AxiosError (Some (st, d)) message) ->
  truthy d = true ->
  JSON_parse d = None \/ JSON_parse d = Some VNull ->
  run (elevenlabs_tts JSON_parse net e req_body) =
  ({| calls := [tts_request e req_body];
      response := plain_reply (relayed_status (Some (st, d))) [] (Raw d) |},
   Ok tt).
Proof.
  intros Hk Hb Ht Hn Hd Hj.
  rewrite (elevenlabs_tts_run JSON_parse net e req_body Hk Hb), Ht, Hn.
  unfold tts_error_reply. cbn [has_response exn_data].
  rewrite status_or_500_relayed.
  destruct Hj as [Hj|Hj]; rewrite Hj; reflexivity.
Qed.

Lemma tts_error_passed_on_witness :
  run (elevenlabs_tts (parse_table [])
         (fun _ => Throw (AxiosError (Some (502, VStr "<html>Bad Gateway</html>")) "failed"))
         eleven_keys (speak "hello")) =
  ({| calls := [tts_request eleven_keys (speak "hello")];
      response := plain_reply 502 [] (Raw (VStr "<html>Bad Gateway</html>")) |},
   Ok tt).
Proof.
  apply (tts_error_passed_on (parse_table [])
           (fun _ => Throw (AxiosError (Some (502, VStr "<html>Bad Gateway</html>")) "failed"))
           eleven_keys (speak "hello") (VStr "<html>Bad Gateway</html>") 502 "failed");
    try reflexivity.
  left. reflexivity.
Defined.

(** X21: when the call to ElevenLabs fails without an upstream response,
    the route answers 500 with one JSON error whose details are the message
    of the error.  With an upstream response whose body is empty, there is
    no such JSON error: the empty body does not parse and is passed on with
    the upstream status. *)
Theorem tts_error_without_body
    (JSON_parse : value -> option value) (net : network) (e : env)
    (req_body : value) (upstream : option (Z * value)) (message : string) :
  truthy (getenv e "ELEVENLABS_API_KEY") = true ->
  nullish req_body = false ->
  truthy (prop req_body "text") = true ->
  net (tts_request e req_body) = Throw (AxiosError upstream message) ->
  match upstream with
  | Some (_, d) => d = VStr "" /\ JSON_parse (VStr "") = None
  | None => True
  end ->
  run (elevenlabs_tts JSON_parse net e req_body) =
  ({| calls := [tts_request e req_body];
      response :=
        match upstream with
        | Some _ => plain_reply (relayed_status upstream) [] (Raw (VStr ""))
        | None =>
            json_reply 500 []
              (VObj [("error", VStr "Failed to communicate with ElevenLabs API");
                     ("details", VStr message)])
        end |},
   Ok tt).
Proof.
  intros Hk Hb Ht Hn Hu.
  rewrite (elevenlabs_tts_run JSON_parse net e req_body Hk Hb), Ht, Hn.
  unfold tts_error_reply. rewrite status_or_500_relayed.
  destruct upstream as [[st d]|]; cbn [has_response exn_data exn_message].
  - destruct Hu as [-> Hj]. rewrite Hj. reflexivity.
  - reflexivity.
Qed.

Lemma tts_error_without_body_witness :
  run (elevenlabs_tts (parse_table []) (fun _ => Throw (AxiosError (Some (503, VStr "")) "failed"))
         eleven_keys (speak "hello")) =
  ({| calls := [tts_request eleven_keys (speak "hello")];
      response := plain_reply 503 [] (Raw (VStr "")) |},
   Ok tt).
Proof.
  apply (tts_error_without_body (parse_table [])
           (fun _ => Throw (AxiosError (Some (503, VStr "")) "failed"))
           eleven_keys (speak "hello") (Some (503, VStr "")) "failed"); try reflexivity.
  split; reflexivity.
Defined.

Example tts_call_unreachable :
  run (elevenlabs_tts (parse_table []) (fun _ => Throw (AxiosError None "timeout"))
         eleven_keys (speak "hello")) =
  ({| calls := [tts_request eleven_keys (speak "hello")];
      response :=
        json_reply 500 []
          (VObj [("error", VStr "Failed to communicate with ElevenLabs API");
                 ("details", VStr "timeout")]) |},
   Ok tt).
Proof. vm_compute. reflexivity. Qed.

(** X22: with the key, a request whose body has no text, or an empty one,
    is refused with 400 before any upstream call. *)
Theorem tts_without_text
    (JSON_parse : value -> option value) (net : network) (e : env) (req_body : value) :
  truthy (getenv e "ELEVENLABS_API_KEY") = true ->
  nullish req_body = false ->
  truthy (prop req_body "text") = false ->
  run (elevenlabs_tts JSON_parse net e req_body) =
  ({| calls := [];
      response :=
        json_reply 400 [] (VObj [("error", VStr "No text provided for ElevenLabs TTS.")]) |},
   Ok tt).
Proof.
  intros Hk Hb Ht.
  rewrite (elevenlabs_tts_run JSON_parse net e req_body Hk Hb), Ht. reflexivity.
Qed.

Lemma tts_without_text_witness :
  run (elevenlabs_tts (parse_table []) (fun _ => Throw (Error "unreachable"))
         eleven_keys (speak "")) =
  ({| calls := [];
      response :=
        json_reply 400 [] (VObj [("error", VStr "No text provided for ElevenLabs TTS.")]) |},
   Ok tt).
Proof.
  apply (tts_without_text (parse_table []) (fun _ => Throw (Error "unreachable"))
           eleven_keys (speak "")); reflexivity.
Defined.

(** ** The image call and its answer, against their spelled-out forms *)

Lemma image_request_expected key referenceImage finalPrompt :
  image_request key referenceImage finalPrompt =
  expected_image_call key referenceImage finalPrompt.
Proof.
  unfold image_request, expected_image_call, image_url, image_parts, reference_parts.
  destruct referenceImage as [| |b|n|s|items|fields];
    cbn [prop]; rewrite ?andb_false_r; reflexivity.
Qed.

Lemma status_relayed err : status_or_500 err = relayed_status (upstream_of err).
Proof. destruct err; try reflexivity. apply status_or_500_relayed. Qed.

Lemma details_relayed err :
  details_of err = relayed_details (upstream_of err) (exn_message err).
Proof. destruct err; try reflexivity. apply details_of_relayed. Qed.

Lemma find_first_scan ps : forall w,
  match scan_parts ps with
  | Found p =>
      find_first has_inline_data ps w = (w, Ok p) /\ inline p = true
  | Missing => find_first has_inline_data ps w = (w, Ok VUndefined)
  | Broken => exists thrown, find_first has_inline_data ps w = (w, Throw (TypeError thrown))
  end.
Proof.
  induction ps as [|p ps IH]; intros w; simpl; [reflexivity|].
  destruct (nullish p) eqn:Hn.
  - unfold bind, has_inline_data, member. rewrite Hn. eexists. reflexivity.
  - unfold bind. rewrite (has_inline_data_run p w Hn).
    destruct (inline p) eqn:Hi; [split; [reflexivity | exact Hi]|]. apply IH.
Qed.

Lemma read_image_scan d w :
  let out :=
    (let '(w2, r) := read_image d w in
     match r with
     | Ok a => (w2, Ok a)
     | Throw err => image_failure err w2
     end) in
  snd out = Ok tt
  /\ match scan_answer d with
     | Found part =>
         response (fst out) =
         response (replied w (statusCode (response w))
                     (VObj [("image", prop (prop part "inlineData") "data");
                            ("mimeType",
                             if truthy (prop (prop part "inlineData") "mimeType")
                             then prop (prop part "inlineData") "mimeType"
                             else VStr "image/png")]))
     | Missing =>
         response (fst out) =
         response (replied w 502
                     (VObj [("error", VStr "Gemini did not return image data.");
                            ("details", d)]))
     | Broken =>
         exists thrown,
           response (fst out) =
           response (replied w 500
                       (VObj [("error", VStr "Failed to communicate with Gemini image API");
                              ("details", VStr thrown)]))
     end.
Proof.
  cbv zeta. unfold read_image, scan_answer, bind.
  destruct (response_parts d) as [| |b|n|s|ps|fields];
    try (split; [reflexivity | eexists; reflexivity]).
  cbn [array_find]. pose proof (find_first_scan ps w) as H.
  destruct (scan_parts ps) as [part| |].
  - destruct H as [H Hi]. rewrite H.
    destruct (inline_object part Hi) as [Ht Hn]. rewrite Ht. cbn [negb].
    unfold member. rewrite Hn. split; reflexivity.
  - rewrite H. split; reflexivity.
  - destruct H as [thrown H]. rewrite H. split; [reflexivity|]. eexists. reflexivity.
Qed.

(** The generation stage, started before anything has been written, makes
    the image call and answers its answer as [image_reply] says. *)
Lemma generation_reply net key req_body finalPrompt w :
  nullish req_body = false ->
  response w = fresh_res ->
  let call := expected_image_call key (prop req_body "referenceImage") finalPrompt in
  let out := try_catch (generate net key req_body finalPrompt) image_failure w in
  calls (fst out) = (calls w ++ [call])%list
  /\ image_reply (net call) (response (fst out))
  /\ snd out = Ok tt.
Proof.
  intros Hb Hw call out. subst out.
  split; [rewrite generate_calls by exact Hb; rewrite image_request_expected; reflexivity|].
  split; [|apply generate_completes].
  rewrite generate_unfold. unfold try_catch, member. rewrite Hb, bind_ret.
  unfold axios_data, axios, bind at 1 2. rewrite image_request_expected. fold call.
  unfold image_reply.
  destruct (net call) as [p|err].
  - assert (Hret : forall w0 : world,
              (match p with Data v => ret v | Stream _ _ => ret (VObj []) end) w0
              = (w0, Ok (data_of p))) by (intros; destruct p; reflexivity).
    rewrite Hret. cbv iota beta.
    destruct (read_image_scan (data_of p)
                {| calls := calls w ++ [call]; response := response w |}) as [_ H].
    cbn [response] in H.
    destruct (scan_answer (data_of p)) as [part| |].
    + rewrite H. cbn [replied response]. rewrite Hw. reflexivity.
    + rewrite H. cbn [replied response]. rewrite Hw. reflexivity.
    + destruct H as [thrown H]. exists thrown. rewrite H.
      cbn [replied response]. rewrite Hw. reflexivity.
  - rewrite image_failure_run, status_relayed, details_relayed.
    cbn [fst replied response]. rewrite Hw. reflexivity.
Qed.

(** ** C5: moderation unavailable *)

(** C5: when the moderation is unavailable (no OpenAI key, a failed call,
    an answer without content, a content that is not JSON, a parsed value
    that is no object with a status), the image route makes the image call
    with the prompt of the request (the trimmed [prompt] field of the body)
    as the text of its last part, answers as the answer of the image model
    alone decides, and completes. *)
Theorem moderation_fails_open
    (JSON_parse : value -> option value) (net : network) (e : env) (req_body : value) :
  let prompt := image_prompt (prop req_body "prompt") in
  let gemini_key := getenv e "GEMINI_API_KEY" in
  let openai_key := getenv e "OPENAI_API_KEY" in
  let image_call :=
    expected_image_call gemini_key (prop req_body "referenceImage") (VStr prompt) in
  let out := run (gemini_image JSON_parse net e req_body) in
  truthy gemini_key = true ->
  nullish req_body = false ->
  prompt <> "" ->
  moderation_unavailable JSON_parse net e prompt ->
  calls (fst out) =
    ((if truthy openai_key then [moderation_request prompt openai_key] else [])
     ++ [image_call])%list
  /\ prop (elem0 (prop (data image_call) "contents")) "parts" =
     VArr (reference_parts (prop req_body "referenceImage")
           ++ [VObj [("text", VStr prompt)]])
  /\ image_reply (net image_call) (response (fst out))
  /\ snd out = Ok tt.
Proof.
  intros prompt gemini_key openai_key image_call out Hg Hb Hp Hu.
  apply unavailable_no_verdict in Hu. subst out.
  rewrite (image_unmoderated JSON_parse net e req_body Hg Hb Hp Hu).
  fold prompt gemini_key openai_key.
  assert (Hw : response (if truthy openai_key
                         then called start (moderation_request prompt openai_key)
                         else start) = fresh_res)
    by (destruct (truthy openai_key); reflexivity).
  destruct (generation_reply net gemini_key req_body (VStr prompt) _ Hb Hw) as (H1 & H2 & H3).
  fold image_call in H1, H2.
  split; [|split; [reflexivity | split; assumption]].
  rewrite H1. destruct (truthy openai_key); reflexivity.
Qed.

Lemma moderation_fails_open_witness :
  let net :=
    two_providers (Ok (Data (chat_completion (VStr "not json"))))
                  (Ok (Data (gemini_answer [png_part]))) in
  let out := run (gemini_image (parse_table []) net both_keys (image_body " a cat ")) in
  calls (fst out) =
    [moderation_request "a cat" (VStr "o-key");
     expected_image_call (VStr "g-key") VUndefined (VStr "a cat")]
  /\ prop (elem0 (prop (data (expected_image_call (VStr "g-key") VUndefined (VStr "a cat")))
                    "contents")) "parts" =
     VArr [VObj [("text", VStr "a cat")]]
  /\ image_reply (net (expected_image_call (VStr "g-key") VUndefined (VStr "a cat")))
       (response (fst out))
  /\ snd out = Ok tt.
Proof.
  apply (moderation_fails_open (parse_table [])
           (two_providers (Ok (Data (chat_completion (VStr "not json"))))
                          (Ok (Data (gemini_answer [png_part]))))
           both_keys (image_body " a cat ")).
  - reflexivity.
  - reflexivity.
  - vm_compute. discriminate.
  - apply (not_json _ _ _ _ (chat_completion (VStr "not json"))); reflexivity.
Defined.

Example fail_open_reply :
  response (fst (run (gemini_image (parse_table [])
                        (two_providers (Ok (Data (chat_completion (VStr "not json"))))
                                       (Ok (Data (gemini_answer [png_part]))))
                        both_keys (image_body " a cat ")))) =
  json_reply 200 [] (VObj [("image", VStr "iVBORw0KGgo="); ("mimeType", VStr "image/png")]).
Proof. vm_compute. reflexivity. Qed.

(** ** C7: the answer of the image model *)

(** C7, as stated, fails: the image model answers, its parts hold no inline
    data (the only part is [null]), and the route answers the generic 500 of
    its catch block, not 502. *)
Lemma null_part_not_502 :
  let d := gemini_answer [VNull] in
  let out :=
    run (gemini_image (parse_table [])
           (two_providers (Throw (Error "down")) (Ok (Data d)))
           gemini_only (image_body "a cat")) in
  find inline [VNull] = None
  /\ response (fst out) =
     json_reply 500 []
       (VObj [("error", VStr "Failed to communicate with Gemini image API");
              ("details", VStr "Cannot read properties of null")]).
Proof. vm_compute. split; reflexivity. Qed.

(** C7, amended: when the moderation block lets the request through and the
    image model answers, the route scans the parts of the first candidate
    (none if the answer has none).  If they are an array in which no [null]
    or [undefined] comes before the first part with inline data, it answers
    502, with the data of the model under [details], when no part has
    inline data, and otherwise 200 with the data and the MIME type
    (image/png if it has none) of the first part that has some.  If the
    parts are not an array, or hold [null] or [undefined] before any part
    with inline data, it answers the 500 of its catch block. *)
Theorem image_answer_read
    (JSON_parse : value -> option value) (net : network) (e : env)
    (req_body finalPrompt d : value) (w1 : world) :
  let prompt := image_prompt (prop req_body "prompt") in
  let gemini_key := getenv e "GEMINI_API_KEY" in
  let out := run (gemini_image JSON_parse net e req_body) in
  truthy gemini_key = true ->
  nullish req_body = false ->
  prompt <> "" ->
  moderate JSON_parse net e prompt start = (w1, Ok (Proceed finalPrompt)) ->
  net (expected_image_call gemini_key (prop req_body "referenceImage") finalPrompt)
    = Ok (Data d) ->
  match scan_answer d with
  | Found part =>
      response (fst out) =
      json_reply 200 []
        (VObj [("image", prop (prop part "inlineData") "data");
               ("mimeType",
                if truthy (prop (prop part "inlineData") "mimeType")
                then prop (prop part "inlineData") "mimeType"
                else VStr "image/png")])
  | Missing =>
      response (fst out) =
      json_reply 502 []
        (VObj [("error", VStr "Gemini did not return image data."); ("details", d)])
  | Broken =>
      exists thrown,
        response (fst out) =
        json_reply 500 []
          (VObj [("error", VStr "Failed to communicate with Gemini image API");
                 ("details", VStr thrown)])
  end.
Proof.
  intros prompt gemini_key out Hg Hb Hp Hm Hn. subst out.
  rewrite (gemini_image_run JSON_parse net e req_body Hg Hb Hp).
  fold prompt. rewrite Hm. fold gemini_key.
  pose proof (moderate_proceed_response JSON_parse net e req_body _ _ _ Hm) as Hres.
  destruct (generation_reply net gemini_key req_body finalPrompt w1 Hb Hres) as (_ & H & _).
  rewrite Hn in H. exact H.
Qed.

Lemma image_answer_read_witness :
  response (fst (run (gemini_image (parse_table [])
                        (two_providers (Throw (Error "down"))
                           (Ok (Data (gemini_answer [VObj [("text", VStr "no image")]]))))
                        gemini_only (image_body "a cat")))) =
  json_reply 502 []
    (VObj [("error", VStr "Gemini did not return image data.");
           ("details", gemini_answer [VObj [("text", VStr "no image")]])]).
Proof.
  apply (image_answer_read (parse_table [])
           (two_providers (Throw (Error "down"))
              (Ok (Data (gemini_answer [VObj [("text", VStr "no image")]]))))
           gemini_only (image_body "a cat") (VStr "a cat")
           (gemini_answer [VObj [("text", VStr "no image")]]) start).
  - reflexivity.
  - reflexivity.
  - vm_compute. discriminate.
  - reflexivity.
  - reflexivity.
Defined.

(** ** C10: the status of the verdict *)

(** C10, as stated, fails: a verdict whose status is the empty string is
    neither safe nor rejected; the pre-filter throws on it and the request
    goes on to the image model, with the prompt of the request, and is
    answered 200. *)
Lemma empty_status_passes :
  let out :=
    run (gemini_image (parse_table [("verdict", empty_status_verdict)])
           (two_providers (Ok (Data (chat_completion (VStr "verdict"))))
                          (Ok (Data (gemini_answer [png_part]))))
           both_keys (image_body "a cat")) in
  is_str (prop empty_status_verdict "status") "safe" = false
  /\ calls (fst out) =
     [moderation_request "a cat" (VStr "o-key");
      expected_image_call (VStr "g-key") VUndefined (VStr "a cat")]
  /\ response (fst out) =
     json_reply 200 [] (VObj [("image", VStr "iVBORw0KGgo="); ("mimeType", VStr "image/png")]).
Proof. vm_compute. repeat split; reflexivity. Qed.

(** C10, amended: when the moderation call returns a content that parses
    to an object, the status of that object decides.  The exact string safe
    lets the request through, with the prompt the verdict gives.  Any other
    truthy status, inside the taxonomy or not, ends the request with 400
    and error unsafe_prompt, and the image model is not called.  A falsy
    status (missing, empty, 0, false, [null]) is a failure of the
    moderation: the request goes through with its own prompt. *)
Theorem status_decides
    (JSON_parse : value -> option value) (net : network) (e : env)
    (req_body d parsed : value) :
  let prompt := image_prompt (prop req_body "prompt") in
  let gemini_key := getenv e "GEMINI_API_KEY" in
  let openai_key := getenv e "OPENAI_API_KEY" in
  let status := prop parsed "status" in
  let image_call := expected_image_call gemini_key (prop req_body "referenceImage") in
  let out := run (gemini_image JSON_parse net e req_body) in
  truthy gemini_key = true ->
  truthy openai_key = true ->
  nullish req_body = false ->
  prompt <> "" ->
  net (moderation_request prompt openai_key) = Ok (Data d) ->
  truthy (moderation_content d) = true ->
  JSON_parse (moderation_content d) = Some parsed ->
  typeof parsed = "object" ->
  nullish parsed = false ->
  if is_str status "safe" then
    calls (fst out) =
    [moderation_request prompt openai_key;
     image_call (if truthy (prop parsed "optimized_prompt")
                 then prop parsed "optimized_prompt" else VStr prompt)]
  else if truthy status then
    out =
    ({| calls := [moderation_request prompt openai_key];
        response :=
          json_reply 400 []
            (VObj [("error", VStr "unsafe_prompt");
                   ("message",
                    if truthy (prop parsed "response") then prop parsed "response"
                    else VStr "whoa, let's keep it PG.")]) |},
     Ok tt)
  else
    calls (fst out) = [moderation_request prompt openai_key; image_call (VStr prompt)]
    /\ image_reply (net (image_call (VStr prompt))) (response (fst out)).
Proof.
  intros prompt gemini_key openai_key status image_call out Hg Ho Hb Hp Hn Hc Hj Ht Hnull.
  subst out.
  assert (Hparsed : truthy parsed = true).
  { destruct parsed; try discriminate; reflexivity. }
  assert (Hv : snd (evaluateAndOptimizeImagePrompt JSON_parse net prompt openai_key start)
               = if truthy status then Ok parsed
                 else Throw (Error "Moderation response missing required fields")).
  { rewrite evaluate_run. cbn [snd]. unfold verdict_of. rewrite Hn, Hc. cbn [negb].
    rewrite Hj, Hparsed, Ht. cbn [negb orb String.eqb]. fold status.
    change ("object" =? "object")%string with true. cbn [negb orb].
    destruct (truthy status); reflexivity. }
  destruct (is_str status "safe") eqn:Hs.
  - assert (Hst : truthy status = true).
    { unfold is_str in Hs. destruct status; try discriminate.
      apply String.eqb_eq in Hs. subst. reflexivity. }
    rewrite Hst in Hv.
    rewrite (image_accepted JSON_parse net e req_body Hg Hb Hp parsed Ho Hv Hs).
    rewrite generate_calls by exact Hb. rewrite image_request_expected. reflexivity.
  - destruct (truthy status) eqn:Hst.
    + apply (image_rejected JSON_parse net e req_body Hg Hb Hp parsed Ho Hv Hs).
    + assert (Hu : truthy (getenv e "OPENAI_API_KEY") = false
                   \/ exists err,
                        snd (evaluateAndOptimizeImagePrompt JSON_parse net
                               (image_prompt (prop req_body "prompt"))
                               (getenv e "OPENAI_API_KEY") start) = Throw err).
      { right. eexists. exact Hv. }
      rewrite (image_unmoderated JSON_parse net e req_body Hg Hb Hp Hu).
      fold prompt gemini_key openai_key. rewrite Ho.
      destruct (generation_reply net gemini_key req_body (VStr prompt)
                  (called start (moderation_request prompt openai_key)) Hb eq_refl)
        as (H1 & H2 & _).
      split; [exact H1 | exact H2].
Qed.

Lemma status_decides_witness :
  run (gemini_image (parse_table [("verdict", odd_verdict)])
         (two_providers (Ok (Data (chat_completion (VStr "verdict"))))
                        (Ok (Data (gemini_answer [png_part]))))
         both_keys (image_body "a cat")) =
  ({| calls := [moderation_request "a cat" (VStr "o-key")];
      response :=
        json_reply 400 []
          (VObj [("error", VStr "unsafe_prompt");
                 ("message", VStr "whoa, let's keep it PG.")]) |},
   Ok tt).
Proof.
  apply (status_decides (parse_table [("verdict", odd_verdict)])
           (two_providers (Ok (Data (chat_completion (VStr "verdict"))))
                          (Ok (Data (gemini_answer [png_part]))))
           both_keys (image_body "a cat") (chat_completion (VStr "verdict")) odd_verdict).
  - reflexivity.
  - reflexivity.
  - reflexivity.
  - vm_compute. discriminate.
  - reflexivity.
  - reflexivity.
  - reflexivity.
  - reflexivity.
  - reflexivity.
Defined.

(** ** C6: the synthesized stream *)

Lemma join_concatenates texts : join texts = fold_right append "" texts.
Proof.
  unfold join. induction texts as [|t texts IH]; [reflexivity|].
  destruct texts as [|u texts].
  - simpl. symmetry. apply append_empty_r.
  - change (String.concat "" (t :: u :: texts)) with (t ++ "" ++ String.concat "" (u :: texts)).
    rewrite IH. reflexivity.
Qed.

Lemma one_line_append a b : one_line (a ++ b) = one_line a && one_line b.
Proof. unfold one_line. rewrite list_of_append, forallb_app. reflexivity. Qed.

Lemma escape_one_line c : one_line (escape c) = true.
Proof. destruct c as [[] [] [] [] [] [] [] []]; reflexivity. Qed.

Lemma escape_all_one_line s : one_line (escape_all s) = true.
Proof.
  induction s as [|c s IH]; [reflexivity|]. simpl.
  rewrite one_line_append, escape_one_line, IH. reflexivity.
Qed.

Lemma event_text_one_line text : one_line (event_text text) = true.
Proof.
  unfold event_text, quote_json.
  rewrite !one_line_append, escape_all_one_line. reflexivity.
Qed.

Lemma lines_after_line a : forall rest,
  one_line a = true -> lines (a ++ String line_feed rest) = a :: lines rest.
Proof.
  induction a as [|c a IH]; intros rest H.
  - reflexivity.
  - unfold one_line in H. simpl in H. apply andb_prop in H as [Hc Ha].
    apply negb_true_iff in Hc.
    change ((String c a) ++ String line_feed rest)
      with (String c (a ++ String line_feed rest)).
    cbn [lines]. rewrite Hc, (IH rest Ha). reflexivity.
Qed.

Lemma part_text_broken p : nullish p = true ->
  forall w, exists thrown, part_text p w = (w, Throw (TypeError thrown)).
Proof.
  intros H w. unfold part_text, member, bind. rewrite H. eexists. reflexivity.
Qed.

Lemma map_each_broken ps : well_formed ps = false ->
  forall w, exists thrown, map_each part_text ps w = (w, Throw (TypeError thrown)).
Proof.
  induction ps as [|p ps IH]; intros H w; simpl in *; [discriminate|].
  destruct (nullish p) eqn:Hn.
  - destruct (part_text_broken p Hn w) as [thrown Hp].
    exists thrown. unfold bind. rewrite Hp. reflexivity.
  - simpl in H. destruct (IH H w) as [thrown Hps].
    exists thrown. unfold bind. rewrite (part_text_run p w Hn), Hps. reflexivity.
Qed.

Lemma chat_texts_read d :
  match read_texts (response_parts d) with
  | Some texts => chat_texts d = Ok texts
  | None => exists thrown, chat_texts d = Throw (TypeError thrown)
  end.
Proof.
  unfold chat_texts, read_texts.
  destruct (response_parts d) as [| |b|n|s|ps|fields]; try (eexists; reflexivity).
  cbn [array_map]. destruct (well_formed ps) eqn:Hwf.
  - rewrite (map_each_run ps start Hwf). reflexivity.
  - destruct (map_each_broken ps Hwf start) as [thrown H]. exists thrown. rewrite H. reflexivity.
Qed.

(** C6, as stated, fails: the chat call succeeds, one part of the answer is
    [null], and the route sends no event at all but one JSON error, with
    status 500. *)
Lemma null_part_no_stream :
  let out :=
    run (gemini_chat stringify_text
           (fun _ => Ok (Data (gemini_answer [VObj [("text", VStr "hel")]; VNull])))
           gemini_only (VObj [("messages", VArr [turn "user" "hi"])])) in
  statusCode (response (fst out)) = 500
  /\ body (response (fst out)) =
     [Json (VObj [("error", VStr "Failed to communicate with Gemini chat API");
                  ("details", VStr "Cannot read properties of null")])].
Proof. vm_compute. split; reflexivity. Qed.

(** C6, amended: when the Gemini chat call succeeds, the route reads the
    parts of the first candidate of the answer (none if it has none).  If
    they are an array without [null] or [undefined], it writes, with the
    event-stream headers and status 200, exactly two events and ends the
    response: [data: ] followed by the JSON text of
    [{choices:[{delta:{content:text}}]}], where [text] is the concatenation
    in order of the string [text] fields of the parts, and by an empty
    line, then [data: [DONE]] and an empty line; the JSON text holds no
    line feed, so that the body has these two data lines and no other.  If
    the parts are not an array or hold [null] or [undefined], it sends no
    event, but one JSON error with status 500. *)
Theorem synthetic_stream_or_error
    (JSON_stringify : value -> string) (net : network) (e : env)
    (req_body d : value) (msgs : list value) :
  let gemini_key := getenv e "GEMINI_API_KEY" in
  let f := formatMessagesForGemini (VArr msgs) in
  let out := run (gemini_chat JSON_stringify net e req_body) in
  truthy gemini_key = true ->
  prop (or_else req_body (VObj [])) "messages" = VArr msgs ->
  contents f <> [] ->
  net (chat_request gemini_key f) = Ok (Data d) ->
  (forall texts,
     read_texts (response_parts d) = Some texts ->
     let text := fold_right append "" texts in
     JSON_stringify
       (VObj [("choices", VArr [VObj [("delta", VObj [("content", VStr text)])]])])
     = event_text text ->
     out =
     ({| calls := [chat_request gemini_key f];
         response :=
           sse_reply
             [ "data: " ++ event_text text ++ newline ++ newline;
               "data: [DONE]" ++ newline ++ newline ] |},
      Ok tt)
     /\ lines (written (body (response (fst out)))) =
        [ "data: " ++ event_text text; ""; "data: [DONE]"; ""; "" ])
  /\ (read_texts (response_parts d) = None ->
      statusCode (response (fst out)) = 500
      /\ exists thrown,
           body (response (fst out)) =
           [Json (VObj [("error", VStr "Failed to communicate with Gemini chat API");
                        ("details", VStr thrown)])]).
Proof.
  intros gemini_key f out Hg Hm Hc Hn. subst out.
  destruct (chat_checks_passed msgs Hc) as [H1 H2].
  fold (body_messages req_body) in Hm.
  assert (Hrun := gemini_chat_run JSON_stringify net e req_body Hg).
  rewrite Hm in Hrun. specialize (Hrun H1 H2).
  fold gemini_key f in Hrun. rewrite Hn in Hrun. cbn [data_of] in Hrun.
  pose proof (chat_texts_read d) as Hread.
  split.
  - intros texts Ht text Hs. rewrite Ht in Hread. rewrite Hread in Hrun.
    rewrite join_concatenates in Hrun. fold text in Hrun.
    unfold event_payload in Hrun. rewrite Hs in Hrun.
    rewrite Hrun. split; [reflexivity|].
    cbn [fst response sse_reply body map written].
    assert (Hline : one_line ("data: " ++ event_text text) = true).
    { rewrite one_line_append, event_text_one_line. reflexivity. }
    assert (Hbody : ("data: " ++ event_text text ++ newline ++ newline)
                    ++ ("data: [DONE]" ++ newline ++ newline) ++ ""
                    = ("data: " ++ event_text text)
                      ++ String line_feed
                           (String line_feed
                              ("data: [DONE]" ++ String line_feed (String line_feed "")))).
    { generalize (event_text text). intros E. simpl.
      rewrite append_assoc_string. reflexivity. }
    unfold done_line. rewrite Hbody.
    rewrite (lines_after_line _ _ Hline). reflexivity.
  - intros Ht. rewrite Ht in Hread. destruct Hread as [thrown Hread].
    rewrite Hread in Hrun. rewrite Hrun. split; [reflexivity|].
    exists thrown. reflexivity.
Qed.

Lemma synthetic_stream_or_error_witness :
  (run (gemini_chat stringify_text
          (fun _ => Ok (Data (gemini_answer
                                [VObj [("text", VStr "hel")]; VObj [("text", VStr "lo")]])))
          gemini_only (VObj [("messages", VArr [turn "user" "hi"])])) =
   ({| calls :=
         [chat_request (VStr "g-key") (formatMessagesForGemini (VArr [turn "user" "hi"]))];
       response :=
         sse_reply
           [ "data: " ++ event_text "hello" ++ newline ++ newline;
             "data: [DONE]" ++ newline ++ newline ] |},
    Ok tt)
   /\ lines (written (body (response (fst
        (run (gemini_chat stringify_text
                (fun _ => Ok (Data (gemini_answer
                                      [VObj [("text", VStr "hel")]; VObj [("text", VStr "lo")]])))
                gemini_only (VObj [("messages", VArr [turn "user" "hi"])]))))))) =
      [ "data: " ++ event_text "hello"; ""; "data: [DONE]"; ""; "" ])
  /\ (statusCode (response (fst
        (run (gemini_chat stringify_text
                (fun _ => Ok (Data (gemini_answer [VNull])))
                gemini_only (VObj [("messages", VArr [turn "user" "hi"])]))))) = 500
      /\ exists thrown,
           body (response (fst
             (run (gemini_chat stringify_text
                     (fun _ => Ok (Data (gemini_answer [VNull])))
                     gemini_only (VObj [("messages", VArr [turn "user" "hi"])]))))) =
           [Json (VObj [("error", VStr "Failed to communicate with Gemini chat API");
                        ("details", VStr thrown)])]).
Proof.
  split.
  - apply (proj1 (synthetic_stream_or_error stringify_text
                    (fun _ => Ok (Data (gemini_answer
                                          [VObj [("text", VStr "hel")];
                                           VObj [("text", VStr "lo")]])))
                    gemini_only (VObj [("messages", VArr [turn "user" "hi"])])
                    (gemini_answer [VObj [("text", VStr "hel")]; VObj [("text", VStr "lo")]])
                    [turn "user" "hi"]
                    eq_refl eq_refl
                    ltac:(vm_compute; discriminate) eq_refl)
                 ["hel"; "lo"]).
    + reflexivity.
    + vm_compute. reflexivity.
  - apply (proj2 (synthetic_stream_or_error stringify_text
                    (fun _ => Ok (Data (gemini_answer [VNull])))
                    gemini_only (VObj [("messages", VArr [turn "user" "hi"])])
                    (gemini_answer [VNull]) [turn "user" "hi"]
                    eq_refl eq_refl
                    ltac:(vm_compute; discriminate) eq_refl)).
    reflexivity.
Defined.
